(** * Fine_Tuning_With_GPT_Neo.ipynb: the notebook as a sequential program

    A shallow embedding of the code cells of
    [src/Fine_Tuning_With_GPT_Neo.ipynb].  The notebook is glue around
    library calls (requests, transformers, datasets).  The glue is embedded
    statement by statement; what the libraries and the network return is
    the [world] the program runs in.  Where a statement's effect is fixed by
    the arguments the notebook passes (truncation, padding, max_length,
    test_size, num_labels, the save directory), the effect is written out.

    The program is the code cells from the request to the two
    [save_pretrained] calls, run top to bottom in a fresh kernel; an
    exception ends the run.  The first code cell installs packages and is
    not part of it. *)

From Stdlib Require Import ZArith QArith Qround String SpecFloat.
From stdpp Require Import base gmap strings list pretty.

Set Warnings "-register-all,-clear-no-such-hyp".

(** ** Python values that [response.json()] can return *)

Inductive json :=
| JNull
| JBool (b : bool)
| JInt (z : Z)
| JFloat (f : spec_float)
| JStr (s : string)
| JList (l : list json)
| JDict (m : gmap string json).

(** ** Exceptions and results *)

(** [LibraryError] stands for the exceptions of the libraries' own classes
    (connection errors, JSON decoding errors, Arrow errors, ...). *)
Inductive exn :=
| KeyError (key : string)
| TypeError (msg : string)
| ValueError (msg : string)
| IndexError (msg : string)
| LibraryError (origin : string).

Inductive res (A : Type) :=
| Ok (a : A)
| Raise (e : exn).
Arguments Ok {A} a.
Arguments Raise {A} e.

Definition is_Ok {A} (r : res A) : Prop := ∃ a, r = Ok a.

#[global] Instance res_ret : MRet res := λ A a, Ok a.
#[global] Instance res_bind : MBind res := λ A B f r,
  match r with Ok a => f a | Raise e => Raise e end.
#[global] Instance res_fmap : FMap res := λ A B f r,
  match r with Ok a => Ok (f a) | Raise e => Raise e end.

(** A list comprehension [[f(x) for x in xs]]: elements are evaluated left to
    right and the first exception aborts the whole comprehension. *)
Fixpoint comprehension {A B} (f : A → res B) (xs : list A) : res (list B) :=
  match xs with
  | [] => Ok []
  | x :: xs' => y ← f x; ys ← comprehension f xs'; mret (y :: ys)
  end.

(** ** The Python operations the extraction cell applies to parsed JSON *)

(** [v[key]] with a string key. *)
Definition py_getitem (v : json) (key : string) : res json :=
  match v with
  | JDict m => match m !! key with
               | Some x => Ok x
               | None => Raise (KeyError key)
               end
  | JList _ => Raise (TypeError "list indices must be integers or slices, not str")
  | JStr _ => Raise (TypeError "string indices must be integers")
  | _ => Raise (TypeError "object is not subscriptable")
  end.

Fixpoint chars (s : string) : list json :=
  match s with
  | EmptyString => []
  | String c s' => JStr (String c EmptyString) :: chars s'
  end.

(** [for row in v]: a list yields its elements, a dict its keys, a string its
    characters; nothing else is iterable.  (Python dicts keep insertion
    order, a [gmap] does not; a key is a [str], on which the extraction
    fails whatever the order.) *)
Definition py_iter (v : json) : res (list json) :=
  match v with
  | JList l => Ok l
  | JDict m => Ok (JStr <$> (map_to_list m).*1)
  | JStr s => Ok (chars s)
  | _ => Raise (TypeError "object is not iterable")
  end.

(** [v == s] for a string literal [s]: only an equal [str] compares equal. *)
Definition py_eq_str (v : json) (s : string) : bool :=
  match v with
  | JStr s' => bool_decide (s' = s)
  | _ => false
  end.

(** ** Cell 5: texts and labels *)

(** [row['row']['text']] *)
Definition row_text (row : json) : res json :=
  r ← py_getitem row "row"; py_getitem r "text".

(** [row['row']['label']] *)
Definition row_label (row : json) : res json :=
  r ← py_getitem row "row"; py_getitem r "label".

(** [1 if row['row']['label'] == 'pos' else 0] *)
Definition label_of_row (row : json) : res Z :=
  l ← row_label row; mret (if py_eq_str l "pos" then 1%Z else 0%Z).

(** [texts = [row['row']['text'] for row in data['rows']]] *)
Definition extract_texts (data : json) : res (list json) :=
  rows ← py_getitem data "rows"; it ← py_iter rows; comprehension row_text it.

(** [labels = [1 if row['row']['label'] == 'pos' else 0 for row in data['rows']]] *)
Definition extract_labels (data : json) : res (list Z) :=
  rows ← py_getitem data "rows"; it ← py_iter rows; comprehension label_of_row it.

(** [num_labels=2] of [GPTNeoForSequenceClassification.from_pretrained]. *)
Definition num_labels : Z := 2%Z.


(** ** Library objects the notebook creates and mutates *)

(** A tokenizer, as far as the notebook observes it: the vocabulary (a
    token's id is its position) and the padding token. *)
Record tokenizer := {
  vocab : list string;
  pad_token : option string
}.

(** [len(tokenizer)] *)
Definition tokenizer_len (t : tokenizer) : nat := length (vocab t).

(** [tokenizer.pad_token_id] *)
Definition pad_token_id (t : tokenizer) : option nat :=
  p ← pad_token t; fst <$> list_find (λ x, x = p) (vocab t).

(** [tokenizer.add_special_tokens({'pad_token': p})]: the token becomes the
    padding token and joins the vocabulary unless it is already there. *)
Definition add_special_tokens (p : string) (t : tokenizer) : tokenizer :=
  {| vocab := if decide (p ∈ vocab t) then vocab t else vocab t ++ [p];
     pad_token := Some p |}.

(** The value of [tokenizer(texts, ...)]. *)
Record encodings := {
  input_ids : list (list nat);
  attention_mask : list (list nat)
}.

Definition truncate (truncation : bool) (max_length : nat) (ids : list nat)
  : list nat :=
  if truncation then take max_length ids else ids.

Definition pad_to (n : nat) (fill : nat) (ids : list nat) : list nat :=
  ids ++ replicate (n - length ids) fill.

(** One element of a batch as the tokenizer's encoder takes it: a text, or
    a pair of texts given as a list of two strings. *)
Inductive text_input :=
| Single (s : string)
| Pair (a b : string).

Definition text_input_of (v : json) : res text_input :=
  match v with
  | JStr s => Ok (Single s)
  | JList [JStr a; JStr b] => Ok (Pair a b)
  | _ => Raise (TypeError "TextEncodeInput must be Union[TextInputSequence, Tuple[InputSequence, InputSequence]]")
  end.

(** The check the call makes on its [text] argument before anything else:
    for a list it looks at the first element only. *)
Definition valid_text_input (texts : list json) : bool :=
  match texts with
  | [] => true
  | JStr _ :: _ => true
  | JList [] :: _ => true
  | JList (JStr _ :: _) :: _ => true
  | _ => false
  end.

(** Truncation of a pair, longest first: nothing is cut when the pair fits;
    otherwise the shorter sequence keeps its [n1] ids and the longer is cut
    to [max n1 (max_length - n1)], unless that is still too long, and then
    the two are cut to the two halves of [max_length]. *)
Definition truncate_pair (max_length : nat) (a b : list nat)
  : list nat * list nat :=
  if decide (length a + length b ≤ max_length) then (a, b)
  else
    let swap := bool_decide (length b < length a) in
    let n1 := length a `min` length b in
    let n2 := if decide (max_length < n1) then n1
              else n1 `max` (max_length - n1) in
    let '(n1, n2) :=
      if decide (max_length < n1 + n2)
      then (max_length / 2, max_length / 2 + max_length mod 2)
      else (n1, n2) in
    if swap then (take n2 a, take n1 b) else (take n1 a, take n2 b).

(** The ids of one element; a pair is encoded as its two encodings one
    after the other. *)
Definition encode_input (bpe : string → list nat) (truncation : bool)
    (max_length : nat) (i : text_input) : list nat :=
  match i with
  | Single s => truncate truncation max_length (bpe s)
  | Pair a b =>
      let '(a', b') := if truncation
                       then truncate_pair max_length (bpe a) (bpe b)
                       else (bpe a, bpe b) in
      a' ++ b'
  end.

(** [tokenizer(texts, truncation=.., padding=.., max_length=..)] on a batch.
    The call checks its argument, then that it can pad, then encodes every
    element with the tokenizer's own text-to-ids function [bpe], cut to
    [max_length] ids when truncating; an empty batch makes it fail on its
    first encoding; when padding, every sequence is filled on the right
    with the pad id up to the longest sequence of the batch. *)
Definition tokenizer_call (bpe : string → list nat) (t : tokenizer)
    (texts : list json) (truncation padding : bool) (max_length : nat)
  : res encodings :=
  if valid_text_input texts then
    pid ← (if padding then
             match pad_token_id t with
             | None => Raise (ValueError "Asking to pad but the tokenizer does not have a padding token")
             | Some pid => Ok (Some pid)
             end
           else Ok None);
    inputs ← comprehension text_input_of texts;
    let seqs := encode_input bpe truncation max_length <$> inputs in
    match seqs with
    | [] => Raise (IndexError "list index out of range")
    | _ :: _ =>
        match pid with
        | Some pid =>
            let n := max_list (length <$> seqs) in
            Ok {| input_ids := pad_to n pid <$> seqs;
                  attention_mask :=
                    (λ s, pad_to n 0 (replicate (length s) 1)) <$> seqs |}
        | None =>
            Ok {| input_ids := seqs;
                  attention_mask := (λ s, replicate (length s) 1) <$> seqs |}
        end
    end
  else Raise (ValueError "text input must be of type str").

(** One row of the dataset. *)
Record example := {
  ex_input_ids : list nat;
  ex_attention_mask : list nat;
  ex_label : Z
}.

Abbreviation dataset := (list example).

Fixpoint zip_columns (ids mask : list (list nat)) (labels : list Z) : dataset :=
  match ids, mask, labels with
  | i :: ids', m :: mask', l :: labels' =>
      {| ex_input_ids := i; ex_attention_mask := m; ex_label := l |}
      :: zip_columns ids' mask' labels'
  | _, _, _ => []
  end.

(** [Dataset.from_dict({'input_ids': .., 'attention_mask': .., 'labels': ..})]:
    columns of different lengths are rejected.  (The integers of the
    columns are token ids, mask bits and labels; the 64-bit range of the
    Arrow table is not modelled.) *)
Definition Dataset_from_dict (ids mask : list (list nat)) (labels : list Z)
  : res dataset :=
  if decide (length ids = length mask ∧ length mask = length labels)
  then Ok (zip_columns ids mask labels)
  else Raise (LibraryError "pyarrow: columns of different lengths").

(** [dataset.select(indices)] *)
Definition select (ds : dataset) (indices : list nat) : res dataset :=
  comprehension
    (λ i, match ds !! i with
          | Some ex => Ok ex
          | None => Raise (IndexError "index out of range")
          end) indices.

(** [test_size=0.2].  The float literals of the notebook are kept as the
    rationals they denote; [ceil (0.2 * n)] computed in double precision is
    the ceiling of n/5 for every n a dataset can have. *)
Definition test_size : Q := 2 # 10.

(** [dataset.train_test_split(test_size=..)] with no [train_size], no [seed]
    and the default [shuffle=True]: the test split takes the first
    [ceil (test_size * n)] indices of a permutation of the row indices, the
    train split the remaining ones; an empty dataset is returned as both
    parts, and an empty train split of a dataset that is not empty is
    refused (the message of the exception is shortened).  The permutation
    is drawn from a generator the caller does not control. *)
Definition train_test_split (permutation : nat → list nat) (size : Q)
    (ds : dataset) : res (dataset * dataset) :=
  let n_samples := length ds in
  let n_test := Z.to_nat (Qceiling (size * inject_Z (Z.of_nat n_samples))) in
  let n_train := n_samples - n_test in
  if decide (n_samples = 0) then Ok (ds, ds)
  else if decide (n_train = 0) then
    Raise (ValueError "the resulting train set will be empty")
  else
    let p := permutation n_samples in
    test ← select ds (take n_test p);
    train ← select ds (take n_train (drop n_test p));
    mret (train, test).

(** What a pretrained checkpoint fixes of the model. *)
Record pretrained_config := {
  vocab_size : nat;
  pad_id : option nat
}.

(** The model, as far as the notebook observes and changes it. *)
Record model := {
  checkpoint : string;
  m_num_labels : Z;
  config_pad_token_id : option nat;
  embedding_rows : nat;
  fine_tuned_on : option dataset
}.

(** [GPTNeoForSequenceClassification.from_pretrained(name, num_labels=k)] *)
Definition model_of_config (name : string) (k : Z) (c : pretrained_config)
  : model :=
  {| checkpoint := name; m_num_labels := k;
     config_pad_token_id := pad_id c; embedding_rows := vocab_size c;
     fine_tuned_on := None |}.

(** [model.config.pad_token_id = id] *)
Definition set_pad_token_id (id : option nat) (m : model) : model :=
  {| checkpoint := checkpoint m; m_num_labels := m_num_labels m;
     config_pad_token_id := id; embedding_rows := embedding_rows m;
     fine_tuned_on := fine_tuned_on m |}.

(** [model.resize_token_embeddings(n)] *)
Definition resize_token_embeddings (n : nat) (m : model) : model :=
  {| checkpoint := checkpoint m; m_num_labels := m_num_labels m;
     config_pad_token_id := config_pad_token_id m; embedding_rows := n;
     fine_tuned_on := fine_tuned_on m |}.

(** The model after [trainer.train()] on [train]. *)
Definition fine_tune (train : dataset) (m : model) : model :=
  {| checkpoint := checkpoint m; m_num_labels := m_num_labels m;
     config_pad_token_id := config_pad_token_id m;
     embedding_rows := embedding_rows m;
     fine_tuned_on := Some train |}.

Record training_args := {
  output_dir : string;
  evaluation_strategy : string;
  learning_rate : Q;
  per_device_train_batch_size : nat;
  per_device_eval_batch_size : nat;
  num_train_epochs : nat;
  weight_decay : Q;
  logging_dir : string;
  logging_steps : nat;
  save_total_limit : nat
}.

Record response := {
  status_code : nat;
  body : string
}.

(** ** The world the notebook runs in

    Everything the script obtains from outside itself: the HTTP server, the
    JSON parser's verdict on the body, the model hub, the tokenizer's
    text-to-ids function, the random generator behind the shuffle, and
    whether the library accepts the training arguments, completes the
    training and writes the files; further, the HTTP GET requests the
    library issues inside each of the two [from_pretrained] calls, which
    download what the local cache lacks of the named checkpoint (none when
    it is all there), and which checkpoints and logs the trainer writes
    while it trains. *)
Inductive trainer_file :=
| Checkpoint (step : nat)
| EventLog (name : string).

Record world := {
  requests_get : string → res response;
  json_loads : string → res json;
  hub_tokenizer : string → res tokenizer;
  bpe : string → list nat;
  hub_model : string → res pretrained_config;
  np_global_permutation : nat → list nat;
  training_arguments_rejected : training_args → option exn;
  training_fails : model → training_args → dataset → dataset → option exn;
  fs_write_fails : string → option exn;
  tokenizer_downloads : string → list string;
  model_downloads : string → list string;
  trainer_files : model → training_args → dataset → dataset → list trainer_file
}.

(** ** Operations and steps *)

(** The operations of the script, with the literal arguments it passes. *)
Inductive op :=
| op_requests_get (url : string)
| op_response_json
| op_extract_texts
| op_extract_labels
| op_tokenizer_from_pretrained (name : string)
| op_add_special_tokens (token : string)
| op_tokenize (truncation padding : bool) (max_length : nat)
| op_Dataset_from_dict
| op_train_test_split (size : Q)
| op_model_from_pretrained (name : string) (k : Z)
| op_set_pad_token_id
| op_resize_token_embeddings
| op_TrainingArguments
| op_Trainer
| op_train
| op_save_model (dir : string)
| op_save_tokenizer (dir : string).

#[global] Instance Q_eq_dec : EqDecision Q.
Proof. solve_decision. Defined.
#[global] Instance op_eq_dec : EqDecision op.
Proof. solve_decision. Defined.

(** The steps of the workflow.  A statement belongs to the step of the
    comment it stands under in its cell: fetch ("Fetch data from the URL"),
    label mapping ("Extract texts and labels from the fetched data"),
    tokenization ("Load the tokenizer", "Add a padding token", "Tokenize the
    data", "Convert the data to a Hugging Face Dataset"), split ("Prepare
    the dataset by splitting it"), model configuration ("Load GPT-Neo
    model", "Set the padding token ID", "resize the model embeddings"),
    training configuration ("Training arguments"), training ("Trainer
    setup", "Fine-tune the model") and saving ("Save the fine-tuned model
    and tokenizer"). *)
Inductive step :=
| Fetch | LabelMapping | Tokenize | Split
| ConfigureModel | ConfigureTraining | Train | Save.

#[global] Instance step_eq_dec : EqDecision step.
Proof. solve_decision. Defined.

Definition step_of (o : op) : step :=
  match o with
  | op_requests_get _ | op_response_json => Fetch
  | op_extract_texts | op_extract_labels => LabelMapping
  | op_tokenizer_from_pretrained _ | op_add_special_tokens _
  | op_tokenize _ _ _ | op_Dataset_from_dict => Tokenize
  | op_train_test_split _ => Split
  | op_model_from_pretrained _ _ | op_set_pad_token_id
  | op_resize_token_embeddings => ConfigureModel
  | op_TrainingArguments => ConfigureTraining
  | op_Trainer | op_train => Train
  | op_save_model _ | op_save_tokenizer _ => Save
  end.



(** ** Program state and the program monad *)

Abbreviation loc := nat.

(** The two objects the script mutates in place live in a store and are
    reached through references: [tokenizer], [model] and the trainer's
    [model] attribute name the same objects throughout. *)
Inductive obj :=
| OTokenizer (t : tokenizer)
| OModel (m : model).

(** What a directory receives: the model or the tokenizer written by
    [save_pretrained], or what the trainer writes on its own, a checkpoint
    of the model it is training or an event log. *)
Inductive artifact :=
| AModel (m : model)
| ATokenizer (t : tokenizer)
| ACheckpoint (step : nat) (m : model)
| AEventLog.

(** [fs] lists the writes to the file system and [net] the URLs of the
    outbound HTTP GET requests, both in the order they happen. *)
Record state := {
  heap : list obj;
  trace : list op;
  fs : list (string * artifact);
  net : list string
}.

Definition init : state := {| heap := []; trace := []; fs := []; net := [] |}.

Definition prog (A : Type) : Type := state → res A * state.

#[global] Instance prog_ret : MRet prog := λ A a s, (Ok a, s).
#[global] Instance prog_bind : MBind prog := λ A B f m s,
  match m s with
  | (Ok a, s') => f a s'
  | (Raise e, s') => (Raise e, s')
  end.

(** An exception raised by a pure computation or by the world. *)
Definition lift {A} (r : res A) : prog A := λ s, (r, s).

Definition check (r : option exn) : prog unit :=
  λ s, match r with None => (Ok (), s) | Some e => (Raise e, s) end.

Definition log (o : op) : prog unit :=
  λ s, (Ok (), {| heap := heap s; trace := trace s ++ [o]; fs := fs s;
                  net := net s |}).

Definition alloc (o : obj) : prog loc :=
  λ s, (Ok (length (heap s)),
        {| heap := heap s ++ [o]; trace := trace s; fs := fs s;
           net := net s |}).

Definition store (l : loc) (o : obj) : prog unit :=
  λ s, (Ok (), {| heap := <[l := o]> (heap s); trace := trace s; fs := fs s;
                  net := net s |}).

Definition load_tokenizer (l : loc) : prog tokenizer :=
  λ s, match heap s !! l with
       | Some (OTokenizer t) => (Ok t, s)
       | _ => (Raise (TypeError "not a tokenizer"), s)
       end.

Definition load_model (l : loc) : prog model :=
  λ s, match heap s !! l with
       | Some (OModel m) => (Ok m, s)
       | _ => (Raise (TypeError "not a model"), s)
       end.

Definition write_all (files : list (string * artifact)) : prog unit :=
  λ s, (Ok (), {| heap := heap s; trace := trace s; fs := fs s ++ files;
                  net := net s |}).

Definition write (dir : string) (a : artifact) : prog unit :=
  write_all [(dir, a)].

(** Outbound HTTP GET requests. *)
Definition request (urls : list string) : prog unit :=
  λ s, (Ok (), {| heap := heap s; trace := trace s; fs := fs s;
                  net := net s ++ urls |}).

(** ** The code cells *)

Definition url : string :=
  "https://datasets-server.huggingface.co/rows?dataset=stanfordnlp%2Fimdb&config=plain_text&split=train&offset=0&length=100".

Definition gpt_neo : string := "EleutherAI/gpt-neo-125M".

Definition save_dir : string := "./fine_tuned_gpt_neo".

(** Where the trainer puts a file of its own: checkpoints under
    [output_dir], logs under [logging_dir]. *)
Definition trainer_path (args : training_args) (f : trainer_file) : string :=
  match f with
  | Checkpoint step => output_dir args +:+ "/checkpoint-" +:+ pretty step
  | EventLog name => logging_dir args +:+ "/" +:+ name
  end.

Definition trainer_write (m : model) (args : training_args) (f : trainer_file)
  : string * artifact :=
  (trainer_path args f,
   match f with
   | Checkpoint step => ACheckpoint step m
   | EventLog _ => AEventLog
   end).


(** [response = requests.get(url); data = response.json()] *)
Definition fetch (w : world) : prog json :=
  log (op_requests_get url);;
  request [url];;
  response ← lift (requests_get w url);
  log op_response_json;;
  lift (json_loads w (body response)).

(** [texts = [...]; labels = [...]] *)
Definition extract (data : json) : prog (list json * list Z) :=
  log op_extract_texts;;
  texts ← lift (extract_texts data);
  log op_extract_labels;;
  labels ← lift (extract_labels data);
  mret (texts, labels).

(** [tokenizer = AutoTokenizer.from_pretrained("EleutherAI/gpt-neo-125M")]:
    the name is a hub repository, whose files are downloaded unless they
    are in the local cache. *)
Definition load_pretrained_tokenizer (w : world) : prog loc :=
  log (op_tokenizer_from_pretrained gpt_neo);;
  request (tokenizer_downloads w gpt_neo);;
  t ← lift (hub_tokenizer w gpt_neo);
  alloc (OTokenizer t).

(** [if tokenizer.pad_token is None: tokenizer.add_special_tokens({'pad_token': '[PAD]'})] *)
Definition ensure_pad_token (tokenizer : loc) : prog unit :=
  t ← load_tokenizer tokenizer;
  match pad_token t with
  | None =>
      log (op_add_special_tokens "[PAD]");;
      store tokenizer (OTokenizer (add_special_tokens "[PAD]" t))
  | Some _ => mret ()
  end.

(** [encodings = tokenizer(texts, truncation=True, padding=True, max_length=512)]
    then [dataset = Dataset.from_dict({...})] *)
Definition tokenize (w : world) (tokenizer : loc) (texts : list json)
    (labels : list Z) : prog dataset :=
  log (op_tokenize true true 512);;
  t ← load_tokenizer tokenizer;
  encodings ← lift (tokenizer_call (bpe w) t texts true true 512);
  log op_Dataset_from_dict;;
  lift (Dataset_from_dict (input_ids encodings) (attention_mask encodings) labels).

(** [train_test_split = dataset.train_test_split(test_size=0.2)];
    [train_dataset = train_test_split['train']];
    [eval_dataset = train_test_split['test']] *)
Definition split (w : world) (ds : dataset) : prog (dataset * dataset) :=
  log (op_train_test_split test_size);;
  lift (train_test_split (np_global_permutation w) test_size ds).

(** [model = GPTNeoForSequenceClassification.from_pretrained(.., num_labels=2)];
    [model.config.pad_token_id = tokenizer.pad_token_id];
    [model.resize_token_embeddings(len(tokenizer))] *)
Definition configure_model (w : world) (tokenizer : loc) : prog loc :=
  log (op_model_from_pretrained gpt_neo num_labels);;
  request (model_downloads w gpt_neo);;
  c ← lift (hub_model w gpt_neo);
  model ← alloc (OModel (model_of_config gpt_neo num_labels c));
  log op_set_pad_token_id;;
  t ← load_tokenizer tokenizer;
  m ← load_model model;
  store model (OModel (set_pad_token_id (pad_token_id t) m));;
  log op_resize_token_embeddings;;
  t ← load_tokenizer tokenizer;
  m ← load_model model;
  store model (OModel (resize_token_embeddings (tokenizer_len t) m));;
  mret model.

(** [training_args = TrainingArguments(...)] *)
Definition configure_training (w : world) : prog training_args :=
  let args :=
    {| output_dir := "./results";
       evaluation_strategy := "epoch";
       learning_rate := 2 # 100000;
       per_device_train_batch_size := 4;
       per_device_eval_batch_size := 4;
       num_train_epochs := 3;
       weight_decay := 1 # 100;
       logging_dir := "./logs";
       logging_steps := 10;
       save_total_limit := 2 |} in
  log op_TrainingArguments;;
  check (training_arguments_rejected w args);;
  mret args.

Record trainer := {
  tr_model : loc;
  tr_args : training_args;
  tr_train_dataset : dataset;
  tr_eval_dataset : dataset
}.

(** [trainer = Trainer(model=model, args=training_args, ...)]; [trainer.train()].
    Training updates the object the trainer's [model] attribute refers to.
    While it runs, up to its end or its failure, the trainer writes its
    checkpoints and logs; [fs] records writes, so the removal of old
    checkpoints under [save_total_limit] leaves no mark in it. *)
Definition train (w : world) (model : loc) (args : training_args)
    (train_dataset eval_dataset : dataset) : prog unit :=
  log op_Trainer;;
  let trainer := {| tr_model := model; tr_args := args;
                    tr_train_dataset := train_dataset;
                    tr_eval_dataset := eval_dataset |} in
  log op_train;;
  m ← load_model (tr_model trainer);
  write_all (trainer_write m (tr_args trainer)
               <$> trainer_files w m (tr_args trainer)
                     (tr_train_dataset trainer) (tr_eval_dataset trainer));;
  check (training_fails w m (tr_args trainer)
           (tr_train_dataset trainer) (tr_eval_dataset trainer));;
  store (tr_model trainer) (OModel (fine_tune (tr_train_dataset trainer) m)).

(** [model.save_pretrained("./fine_tuned_gpt_neo")];
    [tokenizer.save_pretrained("./fine_tuned_gpt_neo")] *)
Definition save (w : world) (model tokenizer : loc) : prog unit :=
  log (op_save_model save_dir);;
  m ← load_model model;
  check (fs_write_fails w save_dir);;
  write save_dir (AModel m);;
  log (op_save_tokenizer save_dir);;
  t ← load_tokenizer tokenizer;
  check (fs_write_fails w save_dir);;
  write save_dir (ATokenizer t).

(** The names the later cells use. *)
Record globals := {
  g_texts : list json;
  g_labels : list Z;
  g_tokenizer : loc;
  g_dataset : dataset;
  g_train_dataset : dataset;
  g_eval_dataset : dataset;
  g_model : loc
}.

(** Cells 5 to 9: from the parsed response to the dataset. *)
Definition prepare (w : world) (data : json)
  : prog (list json * list Z * loc * dataset) :=
  '(texts, labels) ← extract data;
  tokenizer ← load_pretrained_tokenizer w;
  ensure_pad_token tokenizer;;
  ds ← tokenize w tokenizer texts labels;
  mret (texts, labels, tokenizer, ds).

(** Cells 5 to 13: up to the configured model. *)
Definition setup (w : world) (data : json) : prog globals :=
  '(texts, labels, tokenizer, ds) ← prepare w data;
  '(train_dataset, eval_dataset) ← split w ds;
  model ← configure_model w tokenizer;
  mret {| g_texts := texts; g_labels := labels;
          g_tokenizer := tokenizer; g_dataset := ds;
          g_train_dataset := train_dataset; g_eval_dataset := eval_dataset;
          g_model := model |}.

(** Cells 15 and 17. *)
Definition finish (w : world) (g : globals) : prog globals :=
  args ← configure_training w;
  train w (g_model g) args (g_train_dataset g) (g_eval_dataset g);;
  save w (g_model g) (g_tokenizer g);;
  mret g.

(** Everything after the parsed response is bound to [data]. *)
Definition after_fetch (w : world) (data : json) : prog globals :=
  g ← setup w data; finish w g.

(** The notebook, cells run in order from a fresh kernel; the first
    exception ends the run. *)
Definition main (w : world) : prog globals :=
  data ← fetch w; after_fetch w data.

(** The run up to the construction of the dataset. *)
Definition prepared (w : world)
  : res (list json * list Z * loc * dataset) * state :=
  (data ← fetch w; prepare w data) init.

(** The run up to the end of the model-configuration cell. *)
Definition configured (w : world) : res globals * state :=
  (data ← fetch w; setup w data) init.

Definition run (w : world) : res globals * state := main w init.

(** ** The part of a response the script reads *)

Definition keep (keys : list string) (m : gmap string json) : gmap string json :=
  filter (λ kv, kv.1 ∈ keys) m.

Definition restrict_fields (r : json) : json :=
  match r with
  | JDict f => JDict (keep ["text"; "label"] f)
  | _ => r
  end.

Definition restrict_row (row : json) : json :=
  match row with
  | JDict m => JDict (restrict_fields <$> keep ["row"] m)
  | _ => row
  end.

Definition restrict_rows (rows : json) : json :=
  match rows with
  | JList l => JList (restrict_row <$> l)
  | _ => rows
  end.

(** [restrict data] erases from a response every key other than [rows] at
    the top, [row] in an element of the [rows] array, and [text] and [label]
    under [row]. *)
Definition restrict (data : json) : json :=
  match data with
  | JDict m => JDict (restrict_rows <$> keep ["rows"] m)
  | _ => data
  end.

(** [v] is not a dict with key [key]: exactly when [v[key]] raises. *)
Definition lacks (v : json) (key : string) : Prop :=
  ∀ m, v = JDict m → m !! key = None.

(** A response without the [rows] key, or with an element of the [rows]
    array that has no [row] key, or whose [row] has no [text] or no
    [label]. *)
Inductive schema_violation : json → Prop :=
| no_rows data :
    lacks data "rows" → schema_violation data
| no_row m rows row :
    m !! "rows" = Some (JList rows) → row ∈ rows → lacks row "row" →
    schema_violation (JDict m)
| no_text m rows rm r :
    m !! "rows" = Some (JList rows) → JDict rm ∈ rows →
    rm !! "row" = Some r → lacks r "text" →
    schema_violation (JDict m)
| no_label m rows rm r :
    m !! "rows" = Some (JList rows) → JDict rm ∈ rows →
    rm !! "row" = Some r → lacks r "label" →
    schema_violation (JDict m).

(** The operations of a complete run, the conditional one left out. *)
Definition script_ops : list op :=
  [op_requests_get url; op_response_json;
   op_extract_texts; op_extract_labels;
   op_tokenizer_from_pretrained gpt_neo;
   op_tokenize true true 512; op_Dataset_from_dict;
   op_train_test_split test_size;
   op_model_from_pretrained gpt_neo num_labels;
   op_set_pad_token_id; op_resize_token_embeddings;
   op_TrainingArguments;
   op_Trainer; op_train;
   op_save_model save_dir; op_save_tokenizer save_dir].

Definition unconditional (o : op) : Prop := o ≠ op_add_special_tokens "[PAD]".

#[global] Instance unconditional_dec o : Decision (unconditional o).
Proof. unfold unconditional. apply _. Defined.

(** The URLs of the script's own [requests.get] calls among a list of
    operations; [net] has every request, those of the libraries included. *)
Definition http_gets (l : list op) : list string :=
  omap (λ o, match o with op_requests_get u => Some u | _ => None end) l.



(** ** Sample worlds *)

Module Sample.

Definition row (idx : Z) (text : string) (label : json) : json :=
  JDict (<["row_idx" := JInt idx]>
         (<["row" := JDict (<["text" := JStr text]> {["label" := label]})]>
          {["truncated_cells" := JList []]})).

Definition rows : list json :=
  [row 0 "a fine film" (JStr "pos");
   row 1 "dull" (JStr "neg");
   row 2 "loved it" (JStr "pos");
   row 3 "no" (JInt 0);
   row 4 "great cast, weak plot" (JStr "neg")].

(** A response in the shape the datasets server uses, with five rows.  The
    sample worlds start with an empty hub cache. *)
Definition data : json :=
  JDict (<["features" := JList []]>
         (<["rows" := JList rows]>
          (<["num_rows_total" := JInt 25000]> {["partial" := JBool false]}))).

(** The same response with the label of one row missing. *)
Definition broken : json :=
  JDict (<["rows" := JList [row 0 "a fine film" (JStr "pos");
                             JDict {["row" := JDict {["text" := JStr "dull"]}]}]]> ∅).

Definition codes (s : string) : list nat :=
  (λ c, Ascii.nat_of_ascii c) <$> list_ascii_of_string s.

(** The GPT-Neo tokenizer ships without a padding token. *)
Definition no_pad : tokenizer := {| vocab := ["a"; "b"; "c"]; pad_token := None |}.

Definition with_pad : tokenizer :=
  {| vocab := ["a"; "b"; "<pad>"]; pad_token := Some "<pad>" |}.

Definition http_ok : response := {| status_code := 200; body := "{...}" |}.

(** A dataset of a hundred rows. *)
Definition hundred : dataset :=
  (λ i, {| ex_input_ids := [i]; ex_attention_mask := [1];
           ex_label := Z.of_nat (i mod 2) |}) <$> seq 0 100.

(** Where the hub serves a file of a repository. *)
Definition hub_url (name file : string) : string :=
  "https://huggingface.co/" +:+ name +:+ "/resolve/main/" +:+ file.

(** The sample worlds start with an empty cache: both [from_pretrained]
    calls download, and the trainer writes one checkpoint and one log. *)
Definition world_of (d : json) (t : tokenizer) (p : nat → list nat) : world :=
  {| requests_get := λ _, Ok http_ok;
     json_loads := λ _, Ok d;
     hub_tokenizer := λ _, Ok t;
     bpe := codes;
     hub_model := λ _, Ok {| vocab_size := 3; pad_id := None |};
     np_global_permutation := p;
     training_arguments_rejected := λ _, None;
     training_fails := λ _ _ _ _, None;
     fs_write_fails := λ _, None;
     tokenizer_downloads :=
       λ name, hub_url name <$> ["tokenizer_config.json"; "vocab.json";
                                 "merges.txt"];
     model_downloads :=
       λ name, hub_url name <$> ["config.json"; "model.safetensors"];
     trainer_files := λ _ _ _ _, [Checkpoint 3; EventLog "events.out.tfevents"] |}.

Definition w : world := world_of data no_pad (λ n, seq 0 n).
Definition w_reversed : world := world_of data no_pad (λ n, reverse (seq 0 n)).
Definition w_with_pad : world := world_of data with_pad (λ n, seq 0 n).
Definition w_broken : world := world_of broken no_pad (λ n, seq 0 n).

(** A response whose labels are the integers of a class-label feature. *)
Definition int_rows : list json :=
  [row 0 "a fine film" (JInt 1); row 1 "dull" (JInt 0)].

Definition int_data : json := JDict {["rows" := JList int_rows]}.


Definition null_text_row : json :=
  JDict {["row" := JDict (<["text" := JNull]> {["label" := JStr "neg"]})]}.

Definition null_text : json := JDict {["rows" := JList [null_text_row]]}.


(** An encoder that stays within a vocabulary of three tokens. *)
Definition codes3 (s : string) : list nat := (λ i, i mod 3) <$> codes s.

Definition with_bpe (f : string → list nat) (v : world) : world :=
  {| requests_get := requests_get v;
     json_loads := json_loads v;
     hub_tokenizer := hub_tokenizer v;
     bpe := f;
     hub_model := hub_model v;
     np_global_permutation := np_global_permutation v;
     training_arguments_rejected := training_arguments_rejected v;
     training_fails := training_fails v;
     fs_write_fails := fs_write_fails v;
     tokenizer_downloads := tokenizer_downloads v;
     model_downloads := model_downloads v;
     trainer_files := trainer_files v |}.

Definition w_in_vocab : world := with_bpe codes3 w.

(** The sample world, the request answered with status 500. *)
Definition with_response (r : response) (v : world) : world :=
  {| requests_get := λ _, Ok r;
     json_loads := json_loads v;
     hub_tokenizer := hub_tokenizer v;
     bpe := bpe v;
     hub_model := hub_model v;
     np_global_permutation := np_global_permutation v;
     training_arguments_rejected := training_arguments_rejected v;
     training_fails := training_fails v;
     fs_write_fails := fs_write_fails v;
     tokenizer_downloads := tokenizer_downloads v;
     model_downloads := model_downloads v;
     trainer_files := trainer_files v |}.

Definition http_500 : response := {| status_code := 500; body := body http_ok |}.

Definition w_500 : world := with_response http_500 w.

End Sample.

(** * Properties *)

Lemma not_is_Ok_Raise {A} (e : exn) : ¬ is_Ok (@Raise A e).
Proof. by intros [a Ha]. Qed.

(** ** Facts about comprehensions *)

Lemma comprehension_Ok_length {A B} (f : A → res B) xs ys :
  comprehension f xs = Ok ys → length ys = length xs.
Proof.
  revert ys. induction xs as [|x xs IH]; intros ys; simpl.
  - intros [= <-]. done.
  - destruct (f x) as [y|e]; simpl; [|done].
    destruct (comprehension f xs) as [ys'|e]; simpl; [|done].
    intros [= <-]. simpl. by rewrite (IH ys').
Qed.

Lemma comprehension_Ok_lookup {A B} (f : A → res B) xs ys i x :
  comprehension f xs = Ok ys → xs !! i = Some x →
  ∃ y, ys !! i = Some y ∧ f x = Ok y.
Proof.
  revert ys i. induction xs as [|x0 xs IH]; intros ys i; simpl; [done|].
  destruct (f x0) as [y0|e] eqn:Hf; simpl; [|done].
  destruct (comprehension f xs) as [ys'|e]; simpl; [|done].
  intros [= <-]. destruct i as [|i]; simpl.
  - intros [= ->]. eauto.
  - intros Hi. by apply IH.
Qed.

Lemma comprehension_all_Ok {A B} (f : A → res B) xs :
  Forall (λ x, is_Ok (f x)) xs → is_Ok (comprehension f xs).
Proof.
  induction 1 as [|x xs [y Hy] _ [ys Hys]]; simpl.
  - by eexists.
  - rewrite Hy, Hys. by eexists.
Qed.

Lemma comprehension_Raise {A B} (f : A → res B) xs x :
  x ∈ xs → ¬ is_Ok (f x) → ¬ is_Ok (comprehension f xs).
Proof.
  induction 1 as [x xs|x x0 xs Hin IH]; intros Hbad [ys Hys]; simpl in Hys.
  - destruct (f x) as [y|e]; simpl in Hys; [|done].
    apply Hbad. by eexists.
  - destruct (f x0) as [y|e]; simpl in Hys; [|done].
    destruct (comprehension f xs) as [ys'|e]; simpl in Hys; [|done].
    apply IH; [done|]. by eexists.
Qed.

Lemma py_eq_str_spec v s : py_eq_str v s = true ↔ v = JStr s.
Proof.
  destruct v; simpl; try (split; [done|intros [=]]).
  rewrite bool_decide_eq_true. split; [by intros ->|by intros [= ->]].
Qed.

Section Labels.
Local Open Scope Z_scope.

Lemma label_of_row_binary row y : label_of_row row = Ok y → y = 0 ∨ y = 1.
Proof.
  unfold label_of_row. destruct (row_label row) as [l|e]; simpl; [|done].
  destruct (py_eq_str l "pos"); intros [= <-]; auto.
Qed.

(** C1: for well-formed rows the label list is computed; its i-th element is
    1 when the i-th row's row.label is the string 'pos' and 0 otherwise, so
    every label is 0 or 1 and lies below [num_labels]. *)
Theorem C1_label_mapping_binary (data : json) (rows : list json) :
  py_getitem data "rows" = Ok (JList rows) →
  Forall (λ row, is_Ok (row_label row)) rows →
  ∃ labels,
    extract_labels data = Ok labels ∧
    length labels = length rows ∧
    (∀ i row l, rows !! i = Some row → row_label row = Ok l →
       ∃ y, labels !! i = Some y ∧
            (l = JStr "pos" → y = 1) ∧ (l ≠ JStr "pos" → y = 0)) ∧
    Forall (λ y, y = 0 ∨ y = 1) labels ∧
    Forall (λ y, 0 ≤ y < num_labels) labels.
Proof.
  intros Hrows Hall.
  assert (is_Ok (comprehension label_of_row rows)) as [labels Hl].
  { apply comprehension_all_Ok. eapply Forall_impl; [exact Hall|].
    intros row [l Hrl]. unfold label_of_row. rewrite Hrl. by eexists. }
  assert (Forall (λ y, y = 0 ∨ y = 1) labels) as Hbin.
  { apply Forall_lookup_2. intros i y Hy.
    destruct (lookup_lt_is_Some_2 rows i) as [row Hrow].
    { rewrite <- (comprehension_Ok_length _ _ _ Hl). by eapply lookup_lt_Some. }
    destruct (comprehension_Ok_lookup _ _ _ _ _ Hl Hrow) as (y' & Hy' & Hf).
    rewrite Hy in Hy'. injection Hy' as <-. by eapply label_of_row_binary. }
  exists labels. split_and!.
  - unfold extract_labels. rewrite Hrows. simpl. exact Hl.
  - by eapply comprehension_Ok_length.
  - intros i row l Hrow Hrl.
    destruct (comprehension_Ok_lookup _ _ _ _ _ Hl Hrow) as (y & Hy & Hf).
    exists y. split; [done|].
    unfold label_of_row in Hf. rewrite Hrl in Hf. simpl in Hf.
    destruct (py_eq_str l "pos") eqn:Heq; injection Hf as <-.
    + apply py_eq_str_spec in Heq. split; [done|]. by intros [].
    + split; [|done]. intros ->.
      assert (py_eq_str (JStr "pos") "pos" = true) by by apply py_eq_str_spec.
      congruence.
  - exact Hbin.
  - eapply Forall_impl; [exact Hbin|]. unfold num_labels. intros y [->| ->]; lia.
Qed.

End Labels.

(** ** The fields the extraction reads *)

Lemma keep_lookup_in keys (m : gmap string json) k :
  k ∈ keys → keep keys m !! k = m !! k.
Proof.
  intros Hk. unfold keep. apply option_eq. intros x.
  rewrite map_lookup_filter_Some. naive_solver.
Qed.

Lemma comprehension_fmap {A B C} (f : B → res C) (g : A → B) xs :
  comprehension f (g <$> xs) = comprehension (f ∘ g) xs.
Proof. induction xs as [|x xs IH]; csimpl; [done|]. by rewrite IH. Qed.

Lemma comprehension_ext {A B} (f g : A → res B) xs :
  (∀ x, f x = g x) → comprehension f xs = comprehension g xs.
Proof. intros Hfg. induction xs as [|x xs IH]; simpl; [done|]. by rewrite Hfg, IH. Qed.

Lemma restrict_fields_getitem r k :
  k ∈ ["text"; "label"] → py_getitem (restrict_fields r) k = py_getitem r k.
Proof. intros Hk. destruct r; simpl; try done. by rewrite keep_lookup_in. Qed.

Lemma restrict_row_getitem row k :
  k ∈ ["text"; "label"] →
  (r ← py_getitem (restrict_row row) "row"; py_getitem r k)
  = (r ← py_getitem row "row"; py_getitem r k).
Proof.
  intros Hk. destruct row; simpl; try done.
  rewrite lookup_fmap, keep_lookup_in by set_solver.
  destruct (m !! "row") as [r|]; simpl; [|done].
  by apply restrict_fields_getitem.
Qed.

Lemma restrict_row_text row : row_text (restrict_row row) = row_text row.
Proof. apply restrict_row_getitem. set_solver. Qed.

Lemma restrict_row_label row : row_label (restrict_row row) = row_label row.
Proof. apply restrict_row_getitem. set_solver. Qed.

Lemma restrict_rows_comprehension {B} (f : json → res B) rows :
  (∀ row, f (restrict_row row) = f row) →
  (it ← py_iter (restrict_rows rows); comprehension f it)
  = (it ← py_iter rows; comprehension f it).
Proof.
  intros Hf. destruct rows; simpl; try done.
  rewrite comprehension_fmap. by apply comprehension_ext.
Qed.

Lemma restrict_comprehension {B} (f : json → res B) data :
  (∀ row, f (restrict_row row) = f row) →
  (rows ← py_getitem (restrict data) "rows"; it ← py_iter rows; comprehension f it)
  = (rows ← py_getitem data "rows"; it ← py_iter rows; comprehension f it).
Proof.
  intros Hf. destruct data; simpl; try done.
  rewrite lookup_fmap, keep_lookup_in by set_solver.
  destruct (m !! "rows") as [rows|]; simpl; [|done].
  by apply restrict_rows_comprehension.
Qed.

Lemma restrict_extract_texts data :
  extract_texts (restrict data) = extract_texts data.
Proof. apply restrict_comprehension, restrict_row_text. Qed.

Lemma restrict_extract_labels data :
  extract_labels (restrict data) = extract_labels data.
Proof.
  apply restrict_comprehension. intros row.
  unfold label_of_row. by rewrite restrict_row_label.
Qed.

(** The erased keys are really gone: the sample response shrinks. *)
Example restrict_sample_erases :
  py_getitem (restrict Sample.data) "num_rows_total" = Raise (KeyError "num_rows_total")
  ∧ py_getitem Sample.data "num_rows_total" = Ok (JInt 25000).
Proof. split; vm_compute; reflexivity. Qed.

(** ** Responses that break the schema *)

Lemma lacks_getitem v key : lacks v key → ¬ is_Ok (py_getitem v key).
Proof.
  intros Hl. destruct v; simpl; try apply not_is_Ok_Raise.
  rewrite (Hl m eq_refl). apply not_is_Ok_Raise.
Qed.

Lemma bind_not_Ok {A B} (r : res A) (f : A → res B) :
  (∀ a, r = Ok a → ¬ is_Ok (f a)) → ¬ is_Ok (r ≫= f).
Proof.
  intros Hf. destruct r as [a|e]; simpl; [by apply Hf|apply not_is_Ok_Raise].
Qed.

Lemma schema_violation_raises data :
  schema_violation data →
  ¬ is_Ok (extract_texts data) ∨ ¬ is_Ok (extract_labels data).
Proof.
  unfold extract_texts, extract_labels.
  destruct 1 as [data Hl|m rows row Hm Hin Hl|m rows rm r Hm Hin Hrm Hl
                 |m rows rm r Hm Hin Hrm Hl].
  - left. apply lacks_getitem in Hl. apply bind_not_Ok. intros a Ha.
    destruct Hl. by eexists.
  - left. simpl. rewrite Hm. simpl.
    eapply comprehension_Raise; [exact Hin|].
    unfold row_text. apply bind_not_Ok. intros r Hr.
    apply lacks_getitem in Hl. destruct Hl. by eexists.
  - left. simpl. rewrite Hm. simpl.
    eapply comprehension_Raise; [exact Hin|].
    unfold row_text. simpl. rewrite Hrm. simpl. by apply lacks_getitem.
  - right. simpl. rewrite Hm. simpl.
    eapply comprehension_Raise; [exact Hin|].
    unfold label_of_row, row_label. simpl. rewrite Hrm. simpl.
    apply bind_not_Ok. intros l Hgl. apply lacks_getitem in Hl.
    destruct Hl. by eexists.
Qed.

(** ** Tokenization and the dataset *)

Lemma extract_texts_rows data rows :
  py_getitem data "rows" = Ok (JList rows) →
  extract_texts data = comprehension row_text rows.
Proof. unfold extract_texts. by intros ->. Qed.

Lemma extract_labels_rows data rows :
  py_getitem data "rows" = Ok (JList rows) →
  extract_labels data = comprehension label_of_row rows.
Proof. unfold extract_labels. by intros ->. Qed.

Lemma comprehension_text_str txts :
  comprehension text_input_of (JStr <$> txts) = Ok (Single <$> txts).
Proof. induction txts as [|t txts IH]; csimpl; [done|]. by rewrite IH. Qed.

Lemma valid_text_input_strings txts : valid_text_input (JStr <$> txts) = true.
Proof. by destruct txts. Qed.

Lemma well_formed_rows_extract rows :
  Forall (λ row, (∃ txt, row_text row = Ok (JStr txt)) ∧ is_Ok (row_label row))
         rows →
  ∃ txts labels,
    comprehension row_text rows = Ok (JStr <$> txts) ∧
    comprehension label_of_row rows = Ok labels ∧
    Forall2 (λ row txt, row_text row = Ok (JStr txt)) rows txts ∧
    Forall2 (λ row y, label_of_row row = Ok y) rows labels.
Proof.
  induction 1 as [|row rows [[txt Ht] [l Hl]] _ (txts & labels & H1 & H2 & H3 & H4)].
  - exists [], []. by repeat split; constructor.
  - assert (∃ y, label_of_row row = Ok y) as [y Hy].
    { unfold label_of_row. rewrite Hl. by eexists. }
    exists (txt :: txts), (y :: labels). csimpl.
    rewrite Ht, H1, Hy, H2. simpl.
    split_and!; [done|done|by constructor|by constructor].
Qed.

Lemma tokenizer_call_padded bpe t txts pid max_length :
  txts ≠ [] →
  pad_token_id t = Some pid →
  tokenizer_call bpe t (JStr <$> txts) true true max_length
  = let seqs := (λ s, take max_length (bpe s)) <$> txts in
    let n := max_list (length <$> seqs) in
    Ok {| input_ids := pad_to n pid <$> seqs;
          attention_mask := (λ s, pad_to n 0 (replicate (length s) 1)) <$> seqs |}.
Proof.
  intros Hne Hpid. unfold tokenizer_call.
  rewrite valid_text_input_strings, Hpid. simpl.
  rewrite comprehension_text_str. simpl.
  rewrite <- list_fmap_compose.
  destruct txts as [|s txts]; [done|]. done.
Qed.

Lemma zip_columns_fmap {A} (f g : A → list nat) (l : list A) (labels : list Z) :
  zip_columns (f <$> l) (g <$> l) labels
  = zip_with (λ a y, {| ex_input_ids := f a; ex_attention_mask := g a;
                        ex_label := y |}) l labels.
Proof.
  revert labels. induction l as [|a l IH]; intros [|y labels]; csimpl; try done.
  by rewrite IH.
Qed.

Lemma Dataset_from_dict_fmap {A} (f g : A → list nat) (l : list A) labels :
  length l = length labels →
  Dataset_from_dict (f <$> l) (g <$> l) labels
  = Ok (zip_with (λ a y, {| ex_input_ids := f a; ex_attention_mask := g a;
                            ex_label := y |}) l labels).
Proof.
  intros Hlen. unfold Dataset_from_dict.
  rewrite decide_True by (by rewrite !length_fmap).
  by rewrite zip_columns_fmap.
Qed.

Lemma max_list_bounded (l : list nat) b :
  Forall (λ x, x ≤ b) l → max_list l ≤ b.
Proof. induction 1; simpl; lia. Qed.

Lemma length_pad_to n fill ids :
  length ids ≤ n → length (pad_to n fill ids) = n.
Proof. intros. unfold pad_to. rewrite length_app, length_replicate. lia. Qed.

Lemma pad_token_id_added t :
  is_Some (pad_token_id (add_special_tokens "[PAD]" t)).
Proof.
  unfold pad_token_id. simpl.
  destruct (list_find_elem_of (λ x, x = "[PAD]")
              (if decide ("[PAD]" ∈ vocab t) then vocab t else vocab t ++ ["[PAD]"])
              "[PAD]") as [[i x] Hfind]; [|done|].
  - case_decide; set_solver.
  - rewrite Hfind. by eexists.
Qed.

Lemma padded_dataset_well_formed (bpe : string → list nat) rows txts labels pid :
  Forall2 (λ row txt, row_text row = Ok (JStr txt)) rows txts →
  Forall2 (λ row y, label_of_row row = Ok y) rows labels →
  let seqs := (λ s, take 512 (bpe s)) <$> txts in
  let n := max_list (length <$> seqs) in
  let ds := zip_with (λ a y, {| ex_input_ids := pad_to n pid a;
                                ex_attention_mask := pad_to n 0 (replicate (length a) 1);
                                ex_label := y |}) seqs labels in
  length ds = length rows ∧
  (∀ i row, rows !! i = Some row →
     ∃ ex txt padding,
       ds !! i = Some ex ∧
       row_text row = Ok (JStr txt) ∧ txts !! i = Some txt ∧
       label_of_row row = Ok (ex_label ex) ∧ labels !! i = Some (ex_label ex) ∧
       ex_input_ids ex = take 512 (bpe txt) ++ replicate padding pid ∧
       ex_attention_mask ex
       = replicate (length (take 512 (bpe txt))) 1 ++ replicate padding 0) ∧
  n ≤ 512 ∧
  Forall (λ ex, length (ex_input_ids ex) = n ∧ length (ex_attention_mask ex) = n) ds.
Proof.
  intros Ft Fl seqs n ds.
  pose proof (Forall2_length _ _ _ Ft) as Hlt.
  pose proof (Forall2_length _ _ _ Fl) as Hll.
  assert (length seqs = length txts) as Hls by apply length_fmap.
  split_and!.
  - unfold ds. rewrite length_zip_with_l_eq; lia.
  - intros i row Hrow.
    destruct (Forall2_lookup_l _ _ _ _ _ Ft Hrow) as (txt & Htxt & Hrt).
    destruct (Forall2_lookup_l _ _ _ _ _ Fl Hrow) as (y & Hy & Hrl).
    eexists _, txt, (n - length (take 512 (bpe txt))).
    split_and!; [|done|done| | | |].
    + unfold ds. apply lookup_zip_with_Some. eexists _, y.
      split_and!; [done| |done].
      unfold seqs. rewrite list_lookup_fmap, Htxt. done.
    + done.
    + done.
    + done.
    + simpl. unfold pad_to. by rewrite length_replicate.
  - apply max_list_bounded, Forall_fmap, Forall_fmap, Forall_forall.
    intros txt _. simpl. rewrite length_take. lia.
  - apply Forall_lookup_2. intros i ex Hex.
    apply lookup_zip_with_Some in Hex as (a & y & -> & Ha & Hy). simpl.
    assert (length a ≤ n) as Hle.
    { apply max_list_elem_of_le, list_elem_of_fmap. exists a.
      split; [done|]. by eapply list_elem_of_lookup_2. }
    rewrite !length_pad_to; [done| |done]. by rewrite length_replicate.
Qed.

(** ** The train/test split *)

Lemma select_in_range (ds : dataset) (indices : list nat) :
  Forall (λ i, i < length ds) indices →
  ∃ l, select ds indices = Ok l ∧ l = omap (ds !!.) indices
       ∧ length l = length indices.
Proof.
  unfold select. induction 1 as [|i indices Hi _ (l & Hl & -> & Hlen)]; simpl.
  - by exists [].
  - destruct (lookup_lt_is_Some_2 ds i Hi) as [ex Hex].
    rewrite Hex, Hl. simpl. eexists. split_and!; [done|done|].
    simpl. by rewrite Hlen.
Qed.

Lemma omap_lookup_seq {A} (k l : list A) :
  omap ((k ++ l) !!.) (seq (length k) (length l)) = l.
Proof.
  revert k. induction l as [|a l IH]; intros k; simpl; [done|].
  rewrite list_lookup_middle by done. f_equal.
  specialize (IH (k ++ [a])). rewrite length_app in IH. simpl in IH.
  rewrite <- app_assoc in IH. simpl in IH.
  by replace (length k + 1) with (S (length k)) in IH by lia.
Qed.

Lemma omap_lookup_permutation {A} (l : list A) (p : list nat) :
  p ≡ₚ seq 0 (length l) → omap (l !!.) p ≡ₚ l.
Proof.
  intros ->. pose proof (omap_lookup_seq [] l) as H. simpl in H. by rewrite H.
Qed.

Lemma permutation_in_range (p : list nat) n :
  p ≡ₚ seq 0 n → Forall (λ i, i < n) p ∧ length p = n.
Proof.
  intros Hp. split.
  - rewrite Hp. apply Forall_seq. lia.
  - by rewrite Hp, length_seq.
Qed.

(** The size of the test split, [ceil (0.2 * n)], lies between n/5 and
    n/5 + 1. *)
Lemma n_test_bounds (n : nat) :
  let n_test := Z.to_nat (Qceiling (test_size * inject_Z (Z.of_nat n))) in
  n ≤ 5 * n_test ∧ 5 * n_test < n + 5.
Proof.
  unfold test_size, Qceiling, Qfloor, Qmult, Qopp, inject_Z. simpl.
  pose proof (Z.div_mod (- (2 * Z.of_nat n)) 10 ltac:(lia)) as Hdm.
  pose proof (Z.mod_pos_bound (- (2 * Z.of_nat n)) 10 ltac:(lia)) as Hb.
  replace (Z.of_nat n * 1)%Z with (Z.of_nat n) by lia.
  replace (Z.pos (10 * 1)) with 10%Z by done.
  lia.
Qed.

(** Six rows are split into four and two. *)
Lemma split_of_six_rows :
  ∃ train test,
    train_test_split (λ n, seq 0 n) test_size (take 6 Sample.hundred)
    = Ok (train, test) ∧
    length test = 2 ∧ length train = 4.
Proof. eexists _, _. vm_compute. done. Qed.

(** C6 as stated fails: of a dataset of six rows the eval part cannot be a
    fifth; the split gives it two rows, a third (and of a single row there
    is no split at all, see the amended statement). *)
Lemma C6_counterexample :
  ¬ (∀ (permutation : nat → list nat) (ds : dataset),
       permutation (length ds) ≡ₚ seq 0 (length ds) →
       ∃ train test,
         train_test_split permutation test_size ds = Ok (train, test) ∧
         test ++ train ≡ₚ ds ∧
         5 * length test = length ds).
Proof.
  intros H.
  destruct (H (λ n, seq 0 n) (take 6 Sample.hundred)) as (tr & te & E & _ & H5);
    [done|].
  destruct split_of_six_rows as (tr' & te' & E' & Hte & _).
  rewrite E in E'. injection E' as -> ->.
  assert (length (take 6 Sample.hundred) = 6) as L by (by vm_compute).
  rewrite L in H5. lia.
Qed.

(** C6, amended: given that the generator returns a permutation of the row
    indices, the split of a dataset of a single row raises, the train part
    would be empty, and the split of any other dataset succeeds; the two
    parts are the rows at two index lists that together are a permutation
    of all the indices, so the parts share no row position and contain
    every row once; the test part has [ceil (n / 5)] rows, which is 20%
    when 5 divides n, and for 100 rows the parts have 20 and 80 rows. *)
Theorem C6_split_partitions (permutation : nat → list nat) (ds : dataset) :
  permutation (length ds) ≡ₚ seq 0 (length ds) →
  (length ds = 1 →
   train_test_split permutation test_size ds
   = Raise (ValueError "the resulting train set will be empty")) ∧
  (length ds ≠ 1 →
   ∃ train test itrain itest,
     train_test_split permutation test_size ds = Ok (train, test) ∧
     select ds itrain = Ok train ∧
     select ds itest = Ok test ∧
     itest ++ itrain ≡ₚ seq 0 (length ds) ∧
     NoDup (itest ++ itrain) ∧
     test ++ train ≡ₚ ds ∧
     length train + length test = length ds ∧
     length ds ≤ 5 * length test < length ds + 5 ∧
     (∀ k, length ds = 5 * k → length test = k ∧ length train = 4 * k) ∧
     (length ds = 100 → length test = 20 ∧ length train = 80)).
Proof.
  intros Hperm. split.
  { intros Hn. unfold train_test_split.
    pose proof (n_test_bounds (length ds)) as Hb. simpl in Hb.
    rewrite decide_False by lia. rewrite decide_True by lia. done. }
  intros Hn.
  destruct (decide (length ds = 0)) as [Hz|Hnz].
  { unfold train_test_split. rewrite decide_True by done.
    destruct ds; [|done]. exists [], [], [], [].
    split_and!; try done; try (simpl; lia); try constructor. }
  pose proof (n_test_bounds (length ds)) as Hb. simpl in Hb.
  unfold train_test_split.
  set (n := length ds) in *.
  set (n_test := Z.to_nat (Qceiling (test_size * inject_Z (Z.of_nat n)))) in *.
  set (p := permutation n) in *.
  destruct (permutation_in_range p n Hperm) as [Hrange Hlen].
  rewrite decide_False by done. rewrite decide_False by lia.
  assert (take (n - n_test) (drop n_test p) = drop n_test p) as Htake.
  { apply take_ge. rewrite length_drop. lia. }
  rewrite Htake.
  destruct (select_in_range ds (take n_test p)) as (test & Htest & Hte & Hlt).
  { by apply Forall_take. }
  destruct (select_in_range ds (drop n_test p)) as (train & Htrain & Htr & Hltr).
  { by apply Forall_drop. }
  rewrite length_take_le in Hlt by lia. rewrite length_drop in Hltr.
  exists train, test, (drop n_test p), (take n_test p).
  rewrite Htest, Htrain. simpl. rewrite take_drop.
  split_and!; try done; try lia.
  - rewrite Hperm. apply NoDup_seq.
  - rewrite Hte, Htr, <- omap_app, take_drop.
    by apply omap_lookup_permutation.
Qed.

(** ** More on the extraction cell *)

Lemma py_eq_str_other l s : l ≠ JStr s → py_eq_str l s = false.
Proof.
  intros Hne. destruct (py_eq_str l s) eqn:E; [|done].
  by apply py_eq_str_spec in E.
Qed.

(** X1: when no row's label is the string 'pos' (integer class labels,
    'positive', 'Pos', ...), every extracted label is 0. *)
Theorem X1_labels_zero_without_pos (data : json) (rows : list json) :
  py_getitem data "rows" = Ok (JList rows) →
  Forall (λ row, ∃ l, row_label row = Ok l ∧ l ≠ JStr "pos") rows →
  extract_labels data = Ok (replicate (length rows) 0%Z).
Proof.
  intros Hrows Hall. rewrite (extract_labels_rows _ _ Hrows). clear Hrows.
  induction Hall as [|row rows (l & Hl & Hne) _ IH]; [done|].
  assert (label_of_row row = Ok 0%Z) as H0.
  { unfold label_of_row. rewrite Hl. simpl. by rewrite (py_eq_str_other _ _ Hne). }
  cbn [comprehension length replicate]. rewrite H0. simpl. by rewrite IH.
Qed.

Lemma row_text_Ok_inv row v :
  row_text row = Ok v →
  ∃ rm f, row = JDict rm ∧ rm !! "row" = Some (JDict f) ∧ f !! "text" = Some v.
Proof.
  unfold row_text. destruct row as [| | | | | |rm]; simpl; try done.
  destruct (rm !! "row") as [r|] eqn:Hr; simpl; [|done].
  destruct r as [| | | | | |f]; simpl; try done.
  destruct (f !! "text") as [x|] eqn:Hf; [|done].
  intros [= ->]. by exists rm, f.
Qed.

Lemma label_of_row_after_text row v :
  row_text row = Ok v →
  is_Ok (label_of_row row) ∨ label_of_row row = Raise (KeyError "label").
Proof.
  intros (rm & f & -> & Hrm & Hf)%row_text_Ok_inv.
  unfold label_of_row, row_label. simpl. rewrite Hrm. simpl.
  destruct (f !! "label") as [l|]; simpl; [left; by eexists|by right].
Qed.

(** X2: the labels comprehension runs after the texts comprehension over
    the same rows, so when the texts were extracted the only exception it
    can raise is the KeyError for a missing 'label'. *)
Theorem X2_labels_fail_only_on_missing_label (data : json) (texts : list json)
    (e : exn) :
  extract_texts data = Ok texts →
  extract_labels data = Raise e →
  e = KeyError "label".
Proof.
  unfold extract_texts, extract_labels.
  destruct (py_getitem data "rows") as [rowsv|]; simpl; [|done].
  destruct (py_iter rowsv) as [it|]; simpl; [|done].
  revert texts. induction it as [|row it IH]; intros texts; [done|].
  cbn [comprehension].
  destruct (row_text row) as [v|] eqn:Hv; simpl; [|done].
  destruct (comprehension row_text it) as [vs|] eqn:Hvs; simpl; [|done].
  intros _.
  destruct (label_of_row_after_text _ _ Hv) as [[y ->]| ->]; simpl.
  - destruct (comprehension label_of_row it) as [ys|e'] eqn:Hys; simpl; [done|].
    intros [= <-]. by eapply IH.
  - by intros [= <-].
Qed.

Lemma extract_lengths_agree data texts labels :
  extract_texts data = Ok texts → extract_labels data = Ok labels →
  length texts = length labels.
Proof.
  unfold extract_texts, extract_labels.
  destruct (py_getitem data "rows") as [rowsv|]; simpl; [|done].
  destruct (py_iter rowsv) as [it|]; simpl; [|done].
  intros Ht Hl. by rewrite (comprehension_Ok_length _ _ _ Ht),
    (comprehension_Ok_length _ _ _ Hl).
Qed.

Lemma tokenizer_call_lengths bpe t texts truncation padding max_length enc :
  tokenizer_call bpe t texts truncation padding max_length = Ok enc →
  length (input_ids enc) = length texts ∧
  length (attention_mask enc) = length texts.
Proof.
  unfold tokenizer_call. destruct (valid_text_input texts); [|done].
  destruct (if padding then _ else _) as [pid|]; simpl; [|done].
  destruct (comprehension text_input_of texts) as [inputs|] eqn:Hs; simpl;
    [|done].
  apply comprehension_Ok_length in Hs.
  destruct (encode_input _ _ _ <$> inputs) as [|a seqs] eqn:Hseqs; [done|].
  assert (length (a :: seqs) = length texts) as Hlen.
  { by rewrite <- Hseqs, length_fmap. }
  destruct pid; intros [= <-]; simpl in *; by rewrite ?length_fmap.
Qed.

Lemma zip_columns_length ids mask labels :
  length ids = length mask → length mask = length labels →
  length (zip_columns ids mask labels) = length ids.
Proof.
  revert mask labels. induction ids as [|i ids IH]; intros [|m mask] [|l labels];
    simpl; try done.
  intros [= Hm] [= Hl]. by rewrite IH.
Qed.

(** X3: the three columns handed to [Dataset.from_dict] always have the
    same length: whenever both comprehensions and the tokenizer call
    succeed, [from_dict] succeeds, with one example per extracted text. *)
Theorem X3_from_dict_accepts_tokenized (bpe : string → list nat) (t : tokenizer)
    (data : json) (texts : list json) (labels : list Z) (enc : encodings)
    (truncation padding : bool) (max_length : nat) :
  extract_texts data = Ok texts →
  extract_labels data = Ok labels →
  tokenizer_call bpe t texts truncation padding max_length = Ok enc →
  ∃ ds, Dataset_from_dict (input_ids enc) (attention_mask enc) labels = Ok ds ∧
        length ds = length texts.
Proof.
  intros Ht Hl Henc.
  pose proof (extract_lengths_agree _ _ _ Ht Hl) as Hlen.
  destruct (tokenizer_call_lengths _ _ _ _ _ _ _ Henc) as [Hi Hm].
  unfold Dataset_from_dict. rewrite decide_True by (split; congruence).
  eexists. split; [done|].
  rewrite <- Hi. apply zip_columns_length; congruence.
Qed.

(** X4: the extraction does not check that 'rows' is a list.  Whatever else
    it is, the two comprehensions yield empty lists (for an empty dict or an
    empty string) or both raise a TypeError. *)
Theorem X4_rows_not_a_list (m : gmap string json) (v : json) :
  m !! "rows" = Some v →
  (∀ l, v ≠ JList l) →
  (extract_texts (JDict m) = Ok [] ∧ extract_labels (JDict m) = Ok [] ∧
   (v = JDict ∅ ∨ v = JStr EmptyString))
  ∨ (∃ msg, extract_texts (JDict m) = Raise (TypeError msg) ∧
            extract_labels (JDict m) = Raise (TypeError msg)).
Proof.
  intros Hm Hnl. unfold extract_texts, extract_labels. simpl. rewrite Hm. simpl.
  destruct v as [| | | |s|l|m']; simpl; try (right; by eexists).
  - destruct s as [|c s]; simpl; [left; auto|right; by eexists].
  - by destruct (Hnl l).
  - destruct (map_to_list m') as [|[k x] kvs] eqn:Hkv; simpl.
    + left. apply map_to_list_empty_iff in Hkv as ->. auto.
    + right. by eexists.
Qed.

Lemma max_list_min (b : nat) (l : list nat) :
  max_list (Nat.min b <$> l) = Nat.min b (max_list l).
Proof. induction l as [|x l IH]; csimpl; [lia|]. rewrite IH. lia. Qed.

Lemma tokenizer_call_padded_inv bpe t texts max_length enc :
  tokenizer_call bpe t texts true true max_length = Ok enc →
  ∃ inputs pid,
    comprehension text_input_of texts = Ok inputs ∧
    pad_token_id t = Some pid ∧
    let seqs := encode_input bpe true max_length <$> inputs in
    let n := max_list (length <$> seqs) in
    enc = {| input_ids := pad_to n pid <$> seqs;
             attention_mask :=
               (λ s, pad_to n 0 (replicate (length s) 1)) <$> seqs |}.
Proof.
  unfold tokenizer_call. destruct (valid_text_input texts); [|done].
  destruct (pad_token_id t) as [pid|]; simpl; [|done].
  destruct (comprehension text_input_of texts) as [inputs|] eqn:Hs; simpl;
    [|done].
  destruct (encode_input _ _ _ <$> inputs) as [|a seqs] eqn:Hseqs; [done|].
  intros [= <-]. exists inputs, pid. by rewrite Hseqs.
Qed.

(** A truncated pair fits in [max_length] and its two parts are initial
    segments of the two encodings. *)
Lemma truncate_pair_spec max_length (a b : list nat) :
  ∃ n1 n2, truncate_pair max_length a b = (take n1 a, take n2 b) ∧
           length (take n1 a) + length (take n2 b) ≤ max_length.
Proof.
  unfold truncate_pair. case_decide as Hfit.
  - exists (length a), (length b). by rewrite !firstn_all.
  - set (n1 := length a `min` length b).
    set (n2 := if decide (max_length < n1) then n1
               else n1 `max` (max_length - n1)).
    pose proof (Nat.div_mod_eq max_length 2) as Hdm.
    pose proof (Nat.mod_upper_bound max_length 2 ltac:(lia)) as Hm.
    assert (∀ x y (l k : list nat),
              x + y ≤ max_length →
              length (take x l) + length (take y k) ≤ max_length) as Hle.
    { intros x y l k Hxy. rewrite !length_take. lia. }
    destruct (decide (max_length < n1 + n2)) as [Hbig|Hok];
      destruct (bool_decide (length b < length a)); eexists _, _;
      (split; [reflexivity|]); apply Hle; lia.
Qed.

Lemma encode_input_spec bpe max_length (i : text_input) :
  length (encode_input bpe true max_length i) ≤ max_length ∧
  Forall (λ j, ∃ s, j ∈ bpe s) (encode_input bpe true max_length i).
Proof.
  destruct i as [s|a b]; simpl.
  - split; [rewrite length_take; lia|].
    apply Forall_forall. intros j Hj. exists s. by eapply subseteq_take.
  - destruct (truncate_pair_spec max_length (bpe a) (bpe b))
      as (n1 & n2 & -> & Hle).
    split; [by rewrite length_app|].
    apply Forall_app. split; apply Forall_forall; intros j Hj;
      [exists a|exists b]; by eapply subseteq_take.
Qed.

(** X7: with [padding=True] the batch is padded to its longest sequence,
    not to [max_length]: every row of [input_ids] and of [attention_mask]
    has the length of the longest encoded text, capped at 512. *)
Theorem X7_padded_to_longest (bpe : string → list nat) (t : tokenizer)
    (txts : list string) (enc : encodings) :
  tokenizer_call bpe t (JStr <$> txts) true true 512 = Ok enc →
  let longest := max_list ((λ s, length (bpe s)) <$> txts) in
  Forall (λ ids, length ids = Nat.min 512 longest) (input_ids enc) ∧
  Forall (λ mask, length mask = Nat.min 512 longest) (attention_mask enc).
Proof.
  intros Henc longest.
  destruct (pad_token_id t) as [pid|] eqn:Hpid;
    [|unfold tokenizer_call in Henc;
      by rewrite valid_text_input_strings, Hpid in Henc].
  destruct (decide (txts = [])) as [->|Hne].
  { unfold tokenizer_call in Henc. simpl in Henc. by rewrite Hpid in Henc. }
  rewrite (tokenizer_call_padded _ _ _ _ _ Hne Hpid) in Henc.
  injection Henc as <-. simpl.
  assert (max_list (length <$> ((λ s, take 512 (bpe s)) <$> txts))
          = Nat.min 512 longest) as Hn.
  { unfold longest. rewrite <- max_list_min, <- !list_fmap_compose.
    f_equal. apply list_fmap_ext. intros _ s _. simpl. by rewrite length_take. }
  rewrite Hn.
  assert (Forall (λ a : list nat, length a ≤ Nat.min 512 longest)
            ((λ s, take 512 (bpe s)) <$> txts)) as Hle.
  { apply Forall_forall. intros a Ha. rewrite <- Hn.
    apply max_list_elem_of_le, list_elem_of_fmap. by exists a. }
  split; apply Forall_fmap; (eapply Forall_impl; [exact Hle|]); intros a Ha; simpl.
  - by apply length_pad_to.
  - apply length_pad_to. by rewrite length_replicate.
Qed.

(** X11: the extraction does not check that a text is a string.  A row
    whose 'text' is null, a boolean or a number passes both comprehensions;
    the failure comes later, from the tokenizer call, which raises whatever
    its arguments. *)
Theorem X11_non_string_text_fails_at_tokenization (data : json)
    (rows : list json) (row v : json) :
  py_getitem data "rows" = Ok (JList rows) →
  Forall (λ r, is_Ok (row_text r) ∧ is_Ok (row_label r)) rows →
  row ∈ rows → row_text row = Ok v →
  v = JNull ∨ (∃ b, v = JBool b) ∨ (∃ z, v = JInt z) ∨ (∃ f, v = JFloat f) →
  ∃ texts labels,
    extract_texts data = Ok texts ∧ extract_labels data = Ok labels ∧
    ∀ bpe t truncation padding max_length,
      ¬ is_Ok (tokenizer_call bpe t texts truncation padding max_length).
Proof.
  intros Hrows Hall Hin Hv Hscalar.
  assert (is_Ok (comprehension row_text rows)) as [texts Ht].
  { apply comprehension_all_Ok. eapply Forall_impl; [exact Hall|]. by intros r []. }
  assert (is_Ok (comprehension label_of_row rows)) as [labels Hl].
  { apply comprehension_all_Ok. eapply Forall_impl; [exact Hall|].
    intros r [_ [l Hrl]]. unfold label_of_row. rewrite Hrl. by eexists. }
  exists texts, labels.
  rewrite (extract_texts_rows _ _ Hrows), (extract_labels_rows _ _ Hrows).
  split_and!; [done|done|].
  intros bpe t truncation padding max_length [enc Henc].
  unfold tokenizer_call in Henc.
  destruct (valid_text_input texts); [|done].
  destruct (if padding then _ else _) as [pid|]; simpl in Henc; [|done].
  destruct (comprehension text_input_of texts) as [inputs|] eqn:Hs; [|done].
  apply list_elem_of_lookup in Hin as [i Hi].
  destruct (comprehension_Ok_lookup _ _ _ _ _ Ht Hi) as (y & Hy & Hry).
  rewrite Hv in Hry. injection Hry as <-.
  destruct (comprehension_Ok_lookup _ _ _ _ _ Hs Hy) as (ti & _ & Hti).
  by destruct Hscalar as [->|[[b ->]|[[z ->]|[f ->]]]].
Qed.

(** ** More on the split *)


Lemma comprehension_Forall {A B} (f : A → res B) (P : B → Prop) xs ys :
  comprehension f xs = Ok ys → (∀ x y, f x = Ok y → P y) → Forall P ys.
Proof.
  intros Hc HP. apply Forall_lookup_2. intros i y Hy.
  destruct (lookup_lt_is_Some_2 xs i) as [x Hx].
  { rewrite <- (comprehension_Ok_length _ _ _ Hc). by eapply lookup_lt_Some. }
  destruct (comprehension_Ok_lookup _ _ _ _ _ Hc Hx) as (y' & Hy' & Hf).
  rewrite Hy in Hy'. injection Hy' as <-. by eapply HP.
Qed.

Lemma select_subset (ds : dataset) indices l :
  select ds indices = Ok l → Forall (λ ex, ex ∈ ds) l.
Proof.
  intros Hs. eapply comprehension_Forall; [exact Hs|].
  intros i ex. simpl. destruct (ds !! i) as [ex'|] eqn:Hi; [|done].
  intros [= <-]. by eapply list_elem_of_lookup_2.
Qed.

Lemma train_test_split_subset permutation size (ds train test : dataset) :
  train_test_split permutation size ds = Ok (train, test) →
  Forall (λ ex, ex ∈ ds) train ∧ Forall (λ ex, ex ∈ ds) test.
Proof.
  unfold train_test_split.
  set (n_test := Z.to_nat _). set (p := permutation _).
  case_decide as Hempty.
  { intros [= <- <-]. by destruct ds. }
  case_decide; [done|].
  destruct (select ds (take n_test p)) as [te|] eqn:Hte; [|done].
  destruct (select ds (take (length ds - n_test) (drop n_test p)))
    as [tr|] eqn:Htr; [|done].
  simpl. intros [= <- <-]. split; by eapply select_subset.
Qed.

(** ** More on the tokenizer and the dataset *)

Lemma pad_token_id_lt t pid : pad_token_id t = Some pid → pid < tokenizer_len t.
Proof.
  unfold pad_token_id, tokenizer_len.
  destruct (pad_token t) as [p|]; simpl; [|done].
  destruct (list_find _ _) as [[i x]|] eqn:Hf; simpl; [|done].
  intros [= <-]. apply list_find_Some in Hf as (Hi & _ & _).
  by eapply lookup_lt_Some.
Qed.

Lemma extract_labels_binary data labels :
  extract_labels data = Ok labels → Forall (λ y, y = 0 ∨ y = 1)%Z labels.
Proof.
  unfold extract_labels.
  destruct (py_getitem data "rows") as [rowsv|]; simpl; [|done].
  destruct (py_iter rowsv) as [it|]; simpl; [|done].
  intros Hc. eapply comprehension_Forall; [exact Hc|].
  intros row y. apply label_of_row_binary.
Qed.

(** The shape of every example of a dataset built from a padded and
    truncated batch. *)
Lemma tokenized_dataset_shape bpe t texts labels enc (ds : dataset) :
  tokenizer_call bpe t texts true true 512 = Ok enc →
  Dataset_from_dict (input_ids enc) (attention_mask enc) labels = Ok ds →
  ∃ pid n,
    pad_token_id t = Some pid ∧ n ≤ 512 ∧
    Forall (λ ex,
      length (ex_input_ids ex) = n ∧ length (ex_attention_mask ex) = n ∧
      Forall (λ i, i = pid ∨ ∃ s, i ∈ bpe s) (ex_input_ids ex) ∧
      Forall (λ b, b = 0 ∨ b = 1) (ex_attention_mask ex) ∧
      ex_label ex ∈ labels) ds.
Proof.
  intros (inputs & pid & _ & Hpid & Henc)%tokenizer_call_padded_inv Hds.
  simpl in Henc. subst enc. simpl in Hds.
  unfold Dataset_from_dict in Hds. case_decide; [|done].
  injection Hds as <-. rewrite zip_columns_fmap.
  set (seqs := encode_input bpe true 512 <$> inputs).
  set (n := max_list (length <$> seqs)).
  exists pid, n. split_and!; [done| |].
  - apply max_list_bounded, Forall_fmap, Forall_fmap, Forall_forall.
    intros i _. apply encode_input_spec.
  - apply Forall_lookup_2. intros i ex Hex.
    apply lookup_zip_with_Some in Hex as (a & y & -> & Ha & Hy). simpl.
    assert (a ∈ seqs) as Hin by by eapply list_elem_of_lookup_2.
    assert (length a ≤ n) as Hle.
    { apply max_list_elem_of_le, list_elem_of_fmap. by exists a. }
    apply list_elem_of_fmap in Hin as (inp & -> & _).
    split_and!.
    + by apply length_pad_to.
    + apply length_pad_to. by rewrite length_replicate.
    + unfold pad_to. apply Forall_app. split.
      * eapply Forall_impl; [apply encode_input_spec|]. intros j Hj. by right.
      * apply Forall_forall. intros j Hj. left. by eapply elem_of_replicate_inv.
    + unfold pad_to. apply Forall_app. split; apply Forall_forall; intros b Hb;
        apply elem_of_replicate_inv in Hb; auto.
    + by eapply list_elem_of_lookup_2.
Qed.

(** ** More on the pad-token cell *)

(** X5: the pad-token cell can be run again without effect.  Run on a
    store in which the reference holds a tokenizer, it succeeds and leaves a
    tokenizer with a padding token; it changes nothing else in the store;
    when the tokenizer had a padding token it changes nothing at all; and a
    second run changes nothing. *)
Theorem X5_ensure_pad_token_idempotent (tok : loc) (t : tokenizer)
    (s : state) :
  heap s !! tok = Some (OTokenizer t) →
  ∃ s1 t1,
    ensure_pad_token tok s = (Ok (), s1) ∧
    heap s1 !! tok = Some (OTokenizer t1) ∧
    pad_token t1 ≠ None ∧
    (∀ l, l ≠ tok → heap s1 !! l = heap s !! l) ∧
    fs s1 = fs s ∧
    (pad_token t ≠ None → s1 = s) ∧
    ensure_pad_token tok s1 = (Ok (), s1).
Proof.
  intros Ht. unfold ensure_pad_token, mbind, prog_bind, load_tokenizer.
  rewrite Ht. destruct (pad_token t) as [p|] eqn:Hp.
  - exists s, t. unfold mret, prog_ret. rewrite Ht, Hp.
    by split_and!.
  - unfold log, store. simpl.
    assert (tok < length (heap s)) as Hlt by by eapply lookup_lt_Some.
    eexists _, _. split; [reflexivity|]. simpl.
    rewrite list_lookup_insert_eq by done. simpl.
    split_and!; try done.
    intros l Hl. by rewrite list_lookup_insert_ne.
Qed.

(** ** Runs of the whole script *)

Section Runs.
Context (w : world).

Ltac prog_unfold :=
  unfold run, configured, prepared, main, after_fetch, finish, setup, prepare, fetch,
    extract, load_pretrained_tokenizer, ensure_pad_token, tokenize, split,
    configure_model, configure_training, train, save, init;
  unfold mbind, mret, prog_bind, prog_ret, lift, check, log, alloc, store,
    load_tokenizer, load_model, write, write_all, request.

Ltac prog_case :=
  match goal with
  | |- context [match ?x with _ => _ end] =>
      lazymatch x with
      | context [match _ with _ => _ end] => fail
      | _ => destruct x eqn:?
      end
  end.

(** Symbolic execution of a goal [run w = (r, s) → ...]: one case per point
    where the world or the data can make a statement raise. *)
Ltac run_cases :=
  prog_unfold; simpl; repeat (prog_case; simpl);
  intros [= <- <-]; simpl.


Lemma elem_of_trainer_writes d a m args (files : list trainer_file) :
  (d, a) ∈ trainer_write m args <$> files →
  (∃ step, a = ACheckpoint step m ∧ d = trainer_path args (Checkpoint step))
  ∨ a = AEventLog.
Proof.
  intros ([step|name] & [= -> ->] & _)%list_elem_of_fmap; [left|right].
  - by exists step.
  - done.
Qed.

#[local] Opaque extract_texts extract_labels tokenizer_call Dataset_from_dict
  train_test_split trainer_write.




(** Membership of an operation in a concrete trace. *)
Ltac elem_of_absurd H :=
  repeat (apply elem_of_cons in H as [H|H]; [discriminate H|]);
  by apply elem_of_nil in H.

Ltac elem_of_trace :=
  repeat first [apply list_elem_of_here | apply list_elem_of_further].




(** C3 as stated fails: in a world whose hub cache is empty the run
    performs more than the one HTTP GET, the two [from_pretrained] calls
    downloading the files of the checkpoint. *)
Lemma C3_counterexample : ¬ (∀ v : world, net (run v).2 = [url]).
Proof.
  intros H. specialize (H Sample.w). vm_compute in H. discriminate H.
Qed.

(** C3, amended: the script itself calls [requests.get] once, on [url], and
    that is the first outbound request of every run; the only other
    requests are the downloads of the two [from_pretrained] calls from the
    hub repository of the checkpoint, all of them in a run that ends
    without an exception and none when the files are in the local cache;
    and what follows the fetch is the same for a response and for that
    response stripped of everything but rows[].row.text and
    rows[].row.label. *)
Theorem C3_requests_and_fields_read :
  http_gets (trace (run w).2) = [url] ∧
  (∃ rest, net (run w).2 = url :: rest) ∧
  net (run w).2 `prefix_of`
    url :: tokenizer_downloads w gpt_neo ++ model_downloads w gpt_neo ∧
  (is_Ok (run w).1 →
   net (run w).2
   = url :: tokenizer_downloads w gpt_neo ++ model_downloads w gpt_neo) ∧
  (tokenizer_downloads w gpt_neo = [] → model_downloads w gpt_neo = [] →
   net (run w).2 = [url]) ∧
  ∀ data s, after_fetch w (restrict data) s = after_fetch w data s.
Proof.
  assert (∀ data s, after_fetch w (restrict data) s = after_fetch w data s)
    as Hfields.
  { intros data s. unfold after_fetch, setup, prepare, extract.
    unfold mbind, prog_bind, lift.
    by rewrite restrict_extract_texts, restrict_extract_labels. }
  revert Hfields.
  generalize (∀ data s, after_fetch w (restrict data) s = after_fetch w data s).
  intros fields Hfields.
  destruct (run w) as [r s] eqn:E. revert E. run_cases.
  all: split; [done|].
  all: split; [by eexists|].
  all: split; [first [by eexists | exists []; by rewrite app_nil_r]|].
  all: split; [first [done | by intros ?%not_is_Ok_Raise]|].
  all: split; [|exact Hfields].
  all: intros Ht Hm; rewrite ?Ht, ?Hm; done.
Qed.

(** C8 as stated fails: two complete runs whose operation sequences
    differ, the tokenizer of one having a padding token already. *)
Lemma C8_counterexample :
  ¬ (∀ w1 w2 : world, is_Ok (run w1).1 → is_Ok (run w2).1 →
       trace (run w1).2 = trace (run w2).2).
Proof.
  intros H. specialize (H Sample.w Sample.w_with_pad).
  assert (is_Ok (run Sample.w).1) as H1 by (vm_compute; by eexists).
  assert (is_Ok (run Sample.w_with_pad).1) as H2 by (vm_compute; by eexists).
  specialize (H H1 H2). vm_compute in H. discriminate H.
Qed.

(** C8, amended: the pad-token conditional is the only branch.  With the
    call it guards left out, the operations of any run are an initial
    segment of one fixed sequence, all of it when no statement raises; the
    guarded call is made exactly when the loaded tokenizer has no padding
    token. *)
Theorem C8_linear_apart_from_pad_token :
  filter unconditional (trace (run w).2) `prefix_of` script_ops ∧
  (is_Ok (run w).1 → filter unconditional (trace (run w).2) = script_ops) ∧
  (∀ t, hub_tokenizer w gpt_neo = Ok t →
     op_tokenize true true 512 ∈ trace (run w).2 →
     (op_add_special_tokens "[PAD]" ∈ trace (run w).2 ↔ pad_token t = None)).
Proof.
  destruct (run w) as [r s] eqn:E. revert E. run_cases.
  all: split; [by eexists|].
  all: split; [first [done | by intros ?%not_is_Ok_Raise]|].
  all: intros t Ht Hreach; simplify_eq.
  all: try (exfalso; elem_of_absurd Hreach).
  all: split; [intros Hin|intros Hnone]; try done; try congruence.
  all: try (exfalso; elem_of_absurd Hin).
  all: elem_of_trace.
Qed.

(** C4: when the parsed response has no [rows] key, or a row without [row],
    or a [row] without [text] or [label], the run ends in the extraction
    cell with the exception raised there; nothing of the later steps is
    executed, no object is created and no file written. *)
Theorem C4_schema_violation_aborts (resp : response) (data : json) :
  requests_get w url = Ok resp →
  json_loads w (body resp) = Ok data →
  schema_violation data →
  ∃ e, (run w).1 = Raise e ∧
       (extract_texts data = Raise e ∨ extract_labels data = Raise e) ∧
       (trace (run w).2
          = [op_requests_get url; op_response_json; op_extract_texts]
        ∨ trace (run w).2
          = [op_requests_get url; op_response_json; op_extract_texts;
             op_extract_labels]) ∧
       Forall (λ o, step_of o = Fetch ∨ step_of o = LabelMapping)
              (trace (run w).2) ∧
       heap (run w).2 = [] ∧ fs (run w).2 = [].
Proof.
  intros Hget Hjson Hbad. apply schema_violation_raises in Hbad.
  prog_unfold. simpl. rewrite Hget. simpl. rewrite Hjson. simpl.
  destruct (extract_texts data) as [texts|e] eqn:Ht; simpl.
  - destruct (extract_labels data) as [labels|e] eqn:Hl; simpl.
    + exfalso. destruct Hbad as [[]|[]]; by eexists.
    + exists e. split_and!; try done; [by right|by right|].
      repeat first [apply Forall_nil_2 | apply Forall_cons_2; [simpl; auto|]].
  - exists e. split_and!; try done; [by left|by left|].
    repeat first [apply Forall_nil_2 | apply Forall_cons_2; [simpl; auto|]].
Qed.

(** C9: when the model-configuration cell has run, the model's
    [config.pad_token_id] is the tokenizer's [pad_token_id] and the
    embedding table has [len(tokenizer)] rows; the tokenizer is the loaded
    one, changed by [add_special_tokens] of '[PAD]' exactly when it came
    without a padding token, its vocabulary then extended by at most that
    token. *)
Theorem C9_padding_agreement (g : globals) (s : state) :
  configured w = (Ok g, s) →
  ∃ t0 t m,
    hub_tokenizer w gpt_neo = Ok t0 ∧
    heap s !! g_tokenizer g = Some (OTokenizer t) ∧
    heap s !! g_model g = Some (OModel m) ∧
    config_pad_token_id m = pad_token_id t ∧
    embedding_rows m = tokenizer_len t ∧
    (pad_token t0 = None → t = add_special_tokens "[PAD]" t0) ∧
    (pad_token t0 ≠ None → t = t0) ∧
    (op_add_special_tokens "[PAD]" ∈ trace s ↔ pad_token t0 = None) ∧
    (∃ added, vocab t = vocab t0 ++ added ∧ (added = [] ∨ added = ["[PAD]"])).
Proof.
  revert g s. intros g0 s0.
  prog_unfold; simpl; repeat (prog_case; simpl); intros [= <- <-]; simpl.
  - eexists _, _, _. split_and!; try done.
    + congruence.
    + split; [intros Hin; exfalso; elem_of_absurd Hin|congruence].
    + exists []. by rewrite app_nil_r; auto.
  - eexists _, _, _. split_and!; try done.
    + split; [done|intros _; elem_of_trace].
    + simpl. case_decide; [exists []; rewrite app_nil_r|exists ["[PAD]"]]; auto.
Qed.

(** C10: the split is not a function of the fetched data.  Two worlds that
    return the same response, tokenizer and model and differ only in the
    permutation drawn by the random generator, which the script neither
    seeds nor passes, train and evaluate on different rows of the same
    dataset. *)
Theorem C10_split_not_determined_by_data :
  ∃ w1 w2 : world,
    requests_get w1 = requests_get w2 ∧
    json_loads w1 = json_loads w2 ∧
    hub_tokenizer w1 = hub_tokenizer w2 ∧
    bpe w1 = bpe w2 ∧
    hub_model w1 = hub_model w2 ∧
    (∀ n, np_global_permutation w1 n ≡ₚ seq 0 n) ∧
    (∀ n, np_global_permutation w2 n ≡ₚ seq 0 n) ∧
    ∃ g1 g2,
      (run w1).1 = Ok g1 ∧ (run w2).1 = Ok g2 ∧
      g_dataset g1 = g_dataset g2 ∧
      g_train_dataset g1 ≠ g_train_dataset g2 ∧
      g_eval_dataset g1 ≠ g_eval_dataset g2.
Proof.
  exists Sample.w, Sample.w_reversed. split_and!; try done.
  - intros n. simpl. by rewrite reverse_Permutation.
  - destruct (run Sample.w).1 as [g1|] eqn:E1; [|by vm_compute in E1].
    destruct (run Sample.w_reversed).1 as [g2|] eqn:E2; [|by vm_compute in E2].
    exists g1, g2. vm_compute in E1, E2.
    injection E1 as <-. injection E2 as <-.
    split_and!; try done.
Qed.

(** C5: for a response with at least one row, whose rows all carry a
    string [text] and a [label], and a tokenizer that has no padding token
    or has one of its own vocabulary, the dataset is built (with no row the
    tokenizer call raises); each of its three columns has one entry per
    fetched row; its i-th example holds the label of the i-th row and the
    ids of that row's text, cut to 512 and padded on the right; and in every
    example [input_ids] and [attention_mask] have the same length, at most
    512. *)
Theorem C5_dataset_well_formed (resp : response) (data : json)
    (rows : list json) (t0 : tokenizer) :
  requests_get w url = Ok resp →
  json_loads w (body resp) = Ok data →
  py_getitem data "rows" = Ok (JList rows) →
  rows ≠ [] →
  Forall (λ row, (∃ txt, row_text row = Ok (JStr txt)) ∧ is_Ok (row_label row))
         rows →
  hub_tokenizer w gpt_neo = Ok t0 →
  pad_token t0 = None ∨ is_Some (pad_token_id t0) →
  ∃ texts labels tokenizer ds s pid n,
    prepared w = (Ok (texts, labels, tokenizer, ds), s) ∧
    length (ex_input_ids <$> ds) = length rows ∧
    length (ex_attention_mask <$> ds) = length rows ∧
    length (ex_label <$> ds) = length rows ∧
    (∀ i row, rows !! i = Some row →
       ∃ ex txt padding,
         ds !! i = Some ex ∧
         row_text row = Ok (JStr txt) ∧ texts !! i = Some (JStr txt) ∧
         label_of_row row = Ok (ex_label ex) ∧ labels !! i = Some (ex_label ex) ∧
         ex_input_ids ex = take 512 (bpe w txt) ++ replicate padding pid ∧
         ex_attention_mask ex
         = replicate (length (take 512 (bpe w txt))) 1 ++ replicate padding 0) ∧
    Forall (λ ex, length (ex_input_ids ex) = length (ex_attention_mask ex)
                  ∧ length (ex_input_ids ex) ≤ 512) ds ∧
    n ≤ 512 ∧ Forall (λ ex, length (ex_input_ids ex) = n) ds.
Proof.
  intros Hget Hjson Hrows Hne Hwf Hhub Hpad.
  destruct (well_formed_rows_extract rows Hwf) as (txts & labels & Ht & Hl & Ft & Fl).
  assert (length txts = length labels) as Hlen.
  { by rewrite <- (Forall2_length _ _ _ Ft), (Forall2_length _ _ _ Fl). }
  assert (txts ≠ []) as Hnet.
  { intros ->. apply Forall2_length in Ft. by destruct rows. }
  assert (∃ t pid, pad_token_id t = Some pid ∧
            t = match pad_token t0 with
                | None => add_special_tokens "[PAD]" t0
                | Some _ => t0
                end) as (t & pid & Hpid & Heqt).
  { destruct (pad_token t0) as [p|] eqn:Hp.
    - destruct Hpad as [[=]|[pid Hpid]]. by exists t0, pid.
    - destruct (pad_token_id_added t0) as [pid Hpid]. by eexists _, pid. }
  destruct (padded_dataset_well_formed (bpe w) rows txts labels pid Ft Fl)
    as (H1 & H2 & H3 & H4).
  prog_unfold. simpl. rewrite Hget. simpl. rewrite Hjson. simpl.
  rewrite (extract_texts_rows _ _ Hrows), Ht. simpl.
  rewrite (extract_labels_rows _ _ Hrows), Hl. simpl.
  rewrite Hhub. simpl.
  destruct (pad_token t0) as [p|] eqn:Hp; simpl; subst t.
  all: rewrite (tokenizer_call_padded _ _ _ _ _ Hnet Hpid); cbv zeta;
       cbn [input_ids attention_mask].
  all: rewrite Dataset_from_dict_fmap by (by rewrite length_fmap).
  all: eexists _, _, _, _, _, pid,
         (max_list (length <$> ((λ s, take 512 (bpe w s)) <$> txts)));
       split; [reflexivity|].
  all: rewrite !length_fmap.
  all: split_and!; [done|done|done| | |done|].
  all: try (intros i row Hrow;
            destruct (H2 i row Hrow)
              as (ex & txt & padding & ? & ? & Htxt & ? & ? & ? & ?);
            exists ex, txt, padding; rewrite list_lookup_fmap, Htxt;
            by split_and!).
  all: (eapply Forall_impl; [exact H4|]).
  all: intros ex [Hi Hm]; simpl; rewrite ?Hi, ?Hm; by try split.
Qed.

(** ** More on whole runs *)

Ltac elem_of_cases :=
  repeat match goal with
         | H : _ ∈ _ ++ _ |- _ => apply elem_of_app in H as [H|H]
         | H : _ ∈ _ :: _ |- _ => apply elem_of_cons in H as [H|H]
         | H : _ ∈ [] |- _ => by apply elem_of_nil in H
         | H : _ ∈ trainer_write _ _ <$> _ |- _ =>
             apply elem_of_trainer_writes in H as [(? & ? & ?)|?]
         end.

(** X9: whatever the run writes is consistent.  The model saved in
    [./fine_tuned_gpt_neo] is the fine-tuned GPT-Neo classifier with two
    labels, its [pad_token_id] is that of the tokenizer saved beside it and
    its embedding table has as many rows as that tokenizer has tokens; and
    every checkpoint the trainer wrote lies elsewhere, under [./results],
    and is of a model with that same [pad_token_id] and table size. *)
Theorem X9_saved_artifacts_agree (m : model) (t : tokenizer) :
  (save_dir, AModel m) ∈ fs (run w).2 →
  (save_dir, ATokenizer t) ∈ fs (run w).2 →
  checkpoint m = gpt_neo ∧ m_num_labels m = num_labels ∧
  is_Some (fine_tuned_on m) ∧
  config_pad_token_id m = pad_token_id t ∧
  embedding_rows m = tokenizer_len t ∧
  ∀ d step mc, (d, ACheckpoint step mc) ∈ fs (run w).2 →
    d = "./results/checkpoint-" +:+ pretty step ∧ d ≠ save_dir ∧
    checkpoint mc = gpt_neo ∧
    config_pad_token_id mc = pad_token_id t ∧
    embedding_rows mc = tokenizer_len t.
Proof.
  destruct (run w) as [r s] eqn:E. revert E. run_cases.
  all: intros Hm Ht; split_and!; [..|intros d step mc Hc].
  all: elem_of_cases; simplify_eq; try done.
  all: simpl; split_and!; try done; by intros [=].
Qed.

Lemma tokenizer_len_add_special_tokens p t :
  tokenizer_len t ≤ tokenizer_len (add_special_tokens p t).
Proof.
  unfold tokenizer_len, add_special_tokens. simpl.
  case_decide; [done|]. rewrite length_app. lia.
Qed.

Ltac use_configured :=
  repeat match goal with
         | H : tokenizer_call _ _ _ _ _ _ = Ok _ |- _ =>
             let Hd := fresh in
             match goal with
             | Hd : Dataset_from_dict _ _ _ = Ok _ |- _ =>
                 destruct (tokenized_dataset_shape _ _ _ _ _ _ H Hd)
                   as (pid & n & Hpid & Hn & Hshape); clear H
             end
         | H : train_test_split _ _ _ = Ok _ |- _ =>
             apply train_test_split_subset in H as [Htrain Heval]
         | H : extract_labels _ = Ok _ |- _ =>
             apply extract_labels_binary in H; rename H into Hbin
         end.

(** X13: once the model-configuration cell has run, every example of the
    dataset has a label 0 or 1, [input_ids] and [attention_mask] of one
    length of at most 512 and a mask of zeros and ones; and whatever the
    shuffle did, every example of the train and of the eval split is an
    example of the dataset, so has the same shape. *)
Theorem X13_partitions_well_formed (g : globals) (s : state) :
  configured w = (Ok g, s) →
  let shaped ex :=
    (ex_label ex = 0 ∨ ex_label ex = 1)%Z ∧
    length (ex_input_ids ex) = length (ex_attention_mask ex) ∧
    length (ex_input_ids ex) ≤ 512 ∧
    Forall (λ b, b = 0 ∨ b = 1) (ex_attention_mask ex) in
  Forall shaped (g_dataset g) ∧
  Forall (λ ex, ex ∈ g_dataset g ∧ shaped ex) (g_train_dataset g) ∧
  Forall (λ ex, ex ∈ g_dataset g ∧ shaped ex) (g_eval_dataset g).
Proof.
  intros E shaped. revert E.
  prog_unfold; simpl; repeat (prog_case; simpl); intros [= <- <-]; simpl.
  all: use_configured.
  all: match goal with
       | |- Forall _ ?ds ∧ _ => assert (Forall shaped ds) as Hds
       end.
  1,3: eapply Forall_impl; [exact Hshape|];
       intros ex (Hi & Hm & _ & Hmask & Hlab); unfold shaped;
       split_and!; [|congruence|lia|done];
       exact (proj1 (Forall_forall _ _) Hbin _ Hlab).
  all: split_and!; [done| |].
  all: apply Forall_forall; intros ex Hex.
  all: match type of Hds with
       | Forall _ ?ds =>
           assert (ex ∈ ds) as Hin
             by first [exact (proj1 (Forall_forall _ _) Htrain _ Hex)
                      |exact (proj1 (Forall_forall _ _) Heval _ Hex)]
       end.
  all: split; [done|]; exact (proj1 (Forall_forall _ _) Hds _ Hin).
Qed.

(** X6: when the tokenizer's encoder only produces ids of its own
    vocabulary, the resized embedding table covers every id the model is
    given: the padding id and every id of every example of the dataset and
    of both splits is a row of the table. *)
Theorem X6_ids_within_embedding (g : globals) (s : state) (t0 : tokenizer) :
  configured w = (Ok g, s) →
  hub_tokenizer w gpt_neo = Ok t0 →
  (∀ txt, Forall (λ i, i < tokenizer_len t0) (bpe w txt)) →
  ∃ m pid,
    heap s !! g_model g = Some (OModel m) ∧
    config_pad_token_id m = Some pid ∧ pid < embedding_rows m ∧
    let covered ex := Forall (λ i, i < embedding_rows m) (ex_input_ids ex) in
    Forall covered (g_dataset g) ∧
    Forall covered (g_train_dataset g) ∧
    Forall covered (g_eval_dataset g).
Proof.
  intros E Hhub Hbpe. revert E.
  prog_unfold; simpl; repeat (prog_case; simpl); intros [= <- <-]; simpl.
  all: use_configured; simplify_eq.
  all: eexists _, pid; split; [reflexivity|]; simpl.
  all: pose proof (pad_token_id_lt _ _ Hpid) as Hlt.
  all: split; [done|]; split; [done|].
  all: match goal with
       | |- Forall ?c ?ds ∧ _ => assert (Forall c ds) as Hds
       end.
  1,3: eapply Forall_impl; [exact Hshape|];
       intros ex (_ & _ & Hids & _); simpl;
       (eapply Forall_impl; [exact Hids|]); simpl;
       intros i [->|[txt Hi]]; [done|];
       pose proof (proj1 (Forall_forall _ _) (Hbpe txt) _ Hi);
       pose proof (tokenizer_len_add_special_tokens "[PAD]" t0);
       cbv beta in *; lia.
  all: split_and!; [done| |].
  all: apply Forall_forall; intros ex Hex.
  all: match type of Hds with
       | Forall _ ?ds =>
           assert (ex ∈ ds) as Hin
             by first [exact (proj1 (Forall_forall _ _) Htrain _ Hex)
                      |exact (proj1 (Forall_forall _ _) Heval _ Hex)]
       end.
  all: exact (proj1 (Forall_forall _ _) Hds _ Hin).
Qed.


(** X10: the script never looks at the status of the response.  Two worlds
    that answer the request with the same body, whatever the status codes,
    and agree on everything else give the same run. *)
Theorem X10_status_code_ignored (w1 w2 : world) (r1 r2 : response) :
  requests_get w1 url = Ok r1 →
  requests_get w2 url = Ok r2 →
  body r1 = body r2 →
  json_loads w1 = json_loads w2 →
  hub_tokenizer w1 = hub_tokenizer w2 →
  bpe w1 = bpe w2 →
  hub_model w1 = hub_model w2 →
  np_global_permutation w1 = np_global_permutation w2 →
  training_arguments_rejected w1 = training_arguments_rejected w2 →
  training_fails w1 = training_fails w2 →
  fs_write_fails w1 = fs_write_fails w2 →
  tokenizer_downloads w1 = tokenizer_downloads w2 →
  model_downloads w1 = model_downloads w2 →
  trainer_files w1 = trainer_files w2 →
  run w1 = run w2.
Proof.
  intros Hg1 Hg2 Hbody H1 H2 H3 H4 H5 H6 H7 H8 H9 H10 H11.
  prog_unfold. simpl.
  rewrite Hg1, Hg2, Hbody, H1, H2, H3, H4, H5, H6, H7, H8, H9, H10, H11. done.
Qed.

End Runs.

(** ** The theorems at the sample worlds *)

(** Every row of the sample response has a string text and a label. *)
Lemma sample_rows_well_formed :
  Forall (λ row, (∃ txt, row_text row = Ok (JStr txt)) ∧ is_Ok (row_label row))
         Sample.rows.
Proof.
  repeat (apply Forall_cons_2; [split; vm_compute; by eexists|]).
  apply Forall_nil_2.
Qed.

(** C1 at the sample response. *)
Lemma C1_witness :
  ∃ labels, extract_labels Sample.data = Ok labels ∧
            Forall (λ y, (0 ≤ y < num_labels)%Z) labels.
Proof.
  destruct (C1_label_mapping_binary Sample.data Sample.rows)
    as (labels & Hl & _ & _ & _ & Hidx).
  - vm_compute. reflexivity.
  - eapply Forall_impl; [exact sample_rows_well_formed|]. by intros row [_ ?].
  - by exists labels.
Defined.


(** C4 at a response whose second row has no label. *)
Lemma C4_witness :
  ∃ e, (run Sample.w_broken).1 = Raise e ∧ heap (run Sample.w_broken).2 = [].
Proof.
  destruct (C4_schema_violation_aborts Sample.w_broken Sample.http_ok Sample.broken)
    as (e & He & _ & _ & _ & Hheap & _).
  - reflexivity.
  - reflexivity.
  - unfold Sample.broken. eapply no_label.
    + vm_compute. reflexivity.
    + apply list_elem_of_lookup_2 with 1. reflexivity.
    + vm_compute. reflexivity.
    + intros f [= <-]. vm_compute. reflexivity.
  - by exists e.
Defined.

(** C5 at the sample world. *)
Lemma C5_witness :
  ∃ ds, (∃ texts labels tokenizer s,
           prepared Sample.w = (Ok (texts, labels, tokenizer, ds), s)) ∧
        length (ex_label <$> ds) = length Sample.rows ∧
        Forall (λ ex, length (ex_input_ids ex) = length (ex_attention_mask ex)
                      ∧ length (ex_input_ids ex) ≤ 512) ds.
Proof.
  destruct (C5_dataset_well_formed Sample.w Sample.http_ok Sample.data
              Sample.rows Sample.no_pad)
    as (texts & labels & tokenizer & ds & s & pid & n
        & Hrun & _ & _ & Hlen & _ & Hwf & _).
  - reflexivity.
  - reflexivity.
  - vm_compute. reflexivity.
  - discriminate.
  - exact sample_rows_well_formed.
  - reflexivity.
  - by left.
  - exists ds. split_and!; [by eexists _, _, _, _|done|done].
Defined.

(** C6 at a dataset of a hundred rows, shuffled by reversal. *)
Lemma C6_witness :
  ∃ train test,
    train_test_split (λ n, reverse (seq 0 n)) test_size Sample.hundred
    = Ok (train, test) ∧
    length test = 20 ∧ length train = 80.
Proof.
  destruct (C6_split_partitions (λ n, reverse (seq 0 n)) Sample.hundred)
    as [_ Hsplit].
  - apply reverse_Permutation.
  - destruct Hsplit
      as (train & test & itrain & itest
          & Hsplit & _ & _ & _ & _ & _ & _ & _ & _ & H100).
    + vm_compute. lia.
    + exists train, test. split; [done|]. by apply H100.
Defined.


(** C3, amended, at the sample world, whose cache is empty. *)
Lemma C3_witness :
  net (run Sample.w).2
  = url :: (Sample.hub_url gpt_neo
              <$> ["tokenizer_config.json"; "vocab.json"; "merges.txt"])
        ++ (Sample.hub_url gpt_neo <$> ["config.json"; "model.safetensors"]).
Proof.
  refine (proj1 (proj2 (proj2 (proj2
            (C3_requests_and_fields_read Sample.w)))) _).
  vm_compute. by eexists.
Defined.

(** C8, amended, at the sample world. *)
Lemma C8_witness : filter unconditional (trace (run Sample.w).2) = script_ops.
Proof.
  apply (proj1 (proj2 (C8_linear_apart_from_pad_token Sample.w))).
  vm_compute. by eexists.
Defined.

(** C9 at the sample world, whose tokenizer comes without a padding token. *)
Lemma C9_witness :
  ∃ t m,
    heap (configured Sample.w).2 !! 0 = Some (OTokenizer t) ∧
    heap (configured Sample.w).2 !! 1 = Some (OModel m) ∧
    config_pad_token_id m = pad_token_id t ∧
    embedding_rows m = tokenizer_len t.
Proof.
  destruct (configured Sample.w) as [[g|e] s] eqn:E; [|by vm_compute in E].
  destruct (C9_padding_agreement Sample.w g s E)
    as (t0 & t & m & _ & Ht & Hm & Hpad & Hrows & _).
  assert (g_tokenizer g = 0 ∧ g_model g = 1) as [Hgt Hgm].
  { vm_compute in E. by injection E as <- _. }
  rewrite Hgt in Ht. rewrite Hgm in Hm.
  exists t, m. repeat split; assumption.
Defined.

(** ** The further properties at sample inputs *)

(** X1 at a response with integer labels: the row labelled 1 gets 0 too. *)
Lemma X1_witness : extract_labels Sample.int_data = Ok [0; 0]%Z.
Proof.
  apply (X1_labels_zero_without_pos Sample.int_data Sample.int_rows).
  - vm_compute. reflexivity.
  - repeat (apply Forall_cons_2;
              [eexists; split; [vm_compute; reflexivity|discriminate]|]).
    apply Forall_nil_2.
Defined.

(** X2 at the response whose second row has no label. *)
Lemma X2_witness :
  ∃ e, extract_labels Sample.broken = Raise e ∧ e = KeyError "label".
Proof.
  destruct (extract_texts Sample.broken) as [texts|] eqn:Et;
    [|by vm_compute in Et].
  destruct (extract_labels Sample.broken) as [|e] eqn:El;
    [by vm_compute in El|].
  exists e. split; [done|].
  exact (X2_labels_fail_only_on_missing_label Sample.broken texts e Et El).
Defined.

(** X3 at the sample response. *)
Lemma X3_witness :
  ∃ ds, length ds = 5 ∧
        ∃ texts labels enc,
          extract_texts Sample.data = Ok texts ∧
          extract_labels Sample.data = Ok labels ∧
          Dataset_from_dict (input_ids enc) (attention_mask enc) labels = Ok ds.
Proof.
  destruct (extract_texts Sample.data) as [texts|] eqn:Et;
    [|by vm_compute in Et].
  destruct (extract_labels Sample.data) as [labels|] eqn:El;
    [|by vm_compute in El].
  destruct (tokenizer_call Sample.codes Sample.with_pad texts true false 4)
    as [enc|] eqn:Ee; [|vm_compute in Et; injection Et as <-; by vm_compute in Ee].
  destruct (X3_from_dict_accepts_tokenized _ _ _ _ _ _ _ _ _ Et El Ee)
    as (ds & Hds & Hlen).
  exists ds. split; [|by eexists _, _, _].
  rewrite Hlen. vm_compute in Et. by injection Et as <-.
Defined.

(** X4 at a response whose 'rows' is null. *)
Lemma X4_witness :
  ∃ msg, extract_texts (JDict {["rows" := JNull]}) = Raise (TypeError msg).
Proof.
  destruct (X4_rows_not_a_list {["rows" := JNull]} JNull)
    as [(_ & _ & [Hv|Hv])|(msg & Ht & _)]; try done.
  by exists msg.
Defined.

(** X5 at a store holding the tokenizer that has no padding token. *)
Lemma X5_witness :
  ∃ s1, ensure_pad_token 0
          {| heap := [OTokenizer Sample.no_pad]; trace := []; fs := [];
             net := [] |}
        = (Ok (), s1) ∧
        ensure_pad_token 0 s1 = (Ok (), s1).
Proof.
  destruct (X5_ensure_pad_token_idempotent 0 Sample.no_pad
              {| heap := [OTokenizer Sample.no_pad]; trace := []; fs := [];
             net := [] |})
    as (s1 & t1 & Hrun & _ & _ & _ & _ & _ & Hagain); [done|].
  by exists s1.
Defined.

Lemma codes3_in_vocab txt :
  Forall (λ i, i < tokenizer_len Sample.no_pad) (Sample.codes3 txt).
Proof.
  unfold Sample.codes3. apply Forall_fmap, Forall_forall. intros i _.
  change (i mod 3 < 3). apply Nat.mod_upper_bound. lia.
Qed.

(** X6 at a world whose encoder stays within the vocabulary. *)
Lemma X6_witness :
  ∃ g s m, configured Sample.w_in_vocab = (Ok g, s) ∧
           heap s !! g_model g = Some (OModel m) ∧
           Forall (λ ex, Forall (λ i, i < embedding_rows m) (ex_input_ids ex))
                  (g_dataset g).
Proof.
  destruct (configured Sample.w_in_vocab) as [[g|e] s] eqn:E;
    [|by vm_compute in E].
  destruct (X6_ids_within_embedding Sample.w_in_vocab g s Sample.no_pad E)
    as (m & pid & Hm & _ & _ & Hds & _).
  - reflexivity.
  - exact codes3_in_vocab.
  - exists g, s, m. split; [reflexivity|]. split; [exact Hm|exact Hds].
Defined.

(** X7 at a batch of a two-token and a one-token text. *)
Lemma X7_witness :
  ∃ enc, tokenizer_call Sample.codes Sample.with_pad (JStr <$> ["ab"; "a"])
           true true 512 = Ok enc ∧
         Forall (λ ids, length ids = 2) (input_ids enc).
Proof.
  destruct (tokenizer_call Sample.codes Sample.with_pad (JStr <$> ["ab"; "a"])
              true true 512) as [enc|] eqn:E; [|by vm_compute in E].
  exists enc. split; [done|].
  exact (proj1 (X7_padded_to_longest _ _ _ _ E)).
Defined.


(** X9 at the sample world. *)
Lemma X9_witness :
  ∃ m t, (save_dir, AModel m) ∈ fs (run Sample.w).2 ∧
         (save_dir, ATokenizer t) ∈ fs (run Sample.w).2 ∧
         embedding_rows m = tokenizer_len t.
Proof.
  assert (∃ m t c l, fs (run Sample.w).2
                     = [c; l; (save_dir, AModel m); (save_dir, ATokenizer t)])
    as (m & t & c & l & E).
  { eexists _, _, _, _. vm_compute. reflexivity. }
  assert ((save_dir, AModel m) ∈ fs (run Sample.w).2) as Hm.
  { rewrite E. apply list_elem_of_further, list_elem_of_further, list_elem_of_here. }
  assert ((save_dir, ATokenizer t) ∈ fs (run Sample.w).2) as Ht.
  { rewrite E. do 3 apply list_elem_of_further. apply list_elem_of_here. }
  exists m, t. split; [exact Hm|]. split; [exact Ht|].
  destruct (X9_saved_artifacts_agree Sample.w m t Hm Ht)
    as (_ & _ & _ & _ & Hrows & _).
  exact Hrows.
Defined.

(** X10 at the sample world and the same world answering with status 500. *)
Lemma X10_witness : run Sample.w = run Sample.w_500.
Proof.
  by apply (X10_status_code_ignored Sample.w Sample.w_500
              Sample.http_ok Sample.http_500).
Defined.

(** X11 at a response whose only row has a null text. *)
Lemma X11_witness :
  ∃ texts, extract_texts Sample.null_text = Ok texts ∧
           ¬ is_Ok (tokenizer_call Sample.codes Sample.with_pad texts
                      true true 512).
Proof.
  destruct (X11_non_string_text_fails_at_tokenization Sample.null_text
              [Sample.null_text_row] Sample.null_text_row JNull)
    as (texts & labels & Ht & _ & Hno).
  - vm_compute. reflexivity.
  - apply Forall_cons_2; [split; vm_compute; by eexists|apply Forall_nil_2].
  - apply list_elem_of_here.
  - vm_compute. reflexivity.
  - by left.
  - exists texts. split; [done|]. apply Hno.
Defined.

(** X13 at the sample world. *)
Lemma X13_witness :
  ∃ g s, configured Sample.w = (Ok g, s) ∧
         Forall (λ ex, ex ∈ g_dataset g) (g_train_dataset g).
Proof.
  destruct (configured Sample.w) as [[g|e] s] eqn:E; [|by vm_compute in E].
  exists g, s. split; [done|].
  destruct (X13_partitions_well_formed Sample.w g s E) as (_ & Htrain & _).
  eapply Forall_impl; [exact Htrain|]. by intros ex [? _].
Defined.
